(** * django-athumb: thumbnail geometry, pipeline, URL cache and batch
    regeneration, embedded from [athumb/utils.py], [athumb/fields.py] and
    [athumb/management/commands/athumb_regen_field.py]. *)

From Stdlib Require Import ZArith Lia Bool List String Ascii SpecFloat.
From stdpp Require Import gmap strings list pretty.
Import ListNotations.

Local Open Scope string_scope.
Local Open Scope Z_scope.

(** ** The fragment of Python the code relies on *)

Module Py.

(** Exception classes that the code raises, catches or lets through. The
    first four are [IOError] (an alias of [OSError] in Python 3) or
    subclasses of it. *)
Inductive exn_class :=
  | OSError
  | UnidentifiedImageError
  | FileNotFoundError
  | PermissionError
  | AttributeError
  | KeyError
  | ValueError
  | OverflowError
  | ZeroDivisionError
  | UploadedImageIsUnreadableError
  | ThumbnailParseError.

(** An exception object: its class, the message it was built with
    ([args[0]], what [str(exc)] shows) and its instance dictionary. *)
Record exn := Exn {
  exn_class_of : exn_class;
  exn_args : string;
  exn_dict : list (string * string)
}.

Definition mk_exn (c : exn_class) (msg : string) : exn := Exn c msg [].

(** [isinstance(exc, IOError)] *)
Definition is_IOError (e : exn) : bool :=
  match exn_class_of e with
  | OSError | UnidentifiedImageError | FileNotFoundError | PermissionError => true
  | _ => false
  end.

(** The outcome of a call: a value or a raised exception. *)
Inductive result (A : Type) :=
  | Ok (a : A)
  | Raise (e : exn).
Arguments Ok {A} a.
Arguments Raise {A} e.

Definition bind {A B} (r : result A) (k : A -> result B) : result B :=
  match r with
  | Ok a => k a
  | Raise e => Raise e
  end.

(** Attribute lookup [exc.<name>] on an exception instance. Python 3
    exceptions carry [args] but no [message] attribute, so the lookup only
    succeeds when the instance dictionary has the name. *)
Fixpoint assoc (k : string) (l : list (string * string)) : option string :=
  match l with
  | [] => None
  | (k', v) :: r => if String.eqb k k' then Some v else assoc k r
  end.

Definition getattr (e : exn) (name : string) : result string :=
  match assoc name (exn_dict e) with
  | Some v => Ok v
  | None => Raise (mk_exn AttributeError ("object has no attribute '" ++ name ++ "'"))
  end.

(** Python values that configuration options take. *)
Inductive pyval :=
  | PyNone
  | PyBool (b : bool)
  | PyInt (z : Z)
  | PyStr (s : string).

(** Truth value testing. *)
Definition truthy (v : pyval) : bool :=
  match v with
  | PyNone => false
  | PyBool b => b
  | PyInt z => negb (Z.eqb z 0)
  | PyStr s => negb (String.eqb s "")
  end.

(** *** Strings *)

(** [str(v)], which is how an f-string renders the value. *)
Definition str (v : pyval) : string :=
  match v with
  | PyNone => "None"
  | PyBool b => if b then "True" else "False"
  | PyInt z => pretty z
  | PyStr s => s
  end.

(** [s.rsplit(sep, 1)] for a one-character separator: [None] when [sep]
    does not occur (the list has the single element [s]), otherwise the
    parts before and after the last occurrence. *)
Fixpoint rsplit1 (sep : ascii) (s : string) : option (string * string) :=
  match s with
  | EmptyString => None
  | String c r =>
      match rsplit1 sep r with
      | Some (a, b) => Some (String c a, b)
      | None => if Ascii.eqb c sep then Some (EmptyString, r) else None
      end
  end.

(** [s.rsplit(sep, 1)[0]] and [s.rsplit(sep, 1)[-1]] *)
Definition rsplit1_first (sep : ascii) (s : string) : string :=
  match rsplit1 sep s with
  | Some (a, _) => a
  | None => s
  end.

Definition rsplit1_last (sep : ascii) (s : string) : string :=
  match rsplit1 sep s with
  | Some (_, b) => b
  | None => s
  end.

(** [s.split(sep)] for a one-character separator. *)
Fixpoint split (sep : ascii) (s : string) : list string :=
  match s with
  | EmptyString => [EmptyString]
  | String c r =>
      if Ascii.eqb c sep then EmptyString :: split sep r
      else match split sep r with
           | w :: ws => String c w :: ws
           | [] => [String c EmptyString]
           end
  end.

(** [s.lower()], on ASCII letters. *)
Definition lower_ascii (c : ascii) : ascii :=
  let n := nat_of_ascii c in
  if (Nat.leb 65 n && Nat.leb n 90)%bool then ascii_of_nat (n + 32) else c.

Fixpoint lower (s : string) : string :=
  match s with
  | EmptyString => EmptyString
  | String c r => String (lower_ascii c) (lower r)
  end.

(** [c.isspace()] on ASCII. *)
Definition isspace (c : ascii) : bool :=
  let n := nat_of_ascii c in
  ((Nat.leb 9 n && Nat.leb n 13) || (Nat.leb 28 n && Nat.leb n 32))%bool.

Fixpoint lstrip (s : string) : string :=
  match s with
  | EmptyString => EmptyString
  | String c r => if isspace c then lstrip r else s
  end.

Fixpoint rstrip (s : string) : string :=
  match s with
  | EmptyString => EmptyString
  | String c r =>
      match rstrip r with
      | EmptyString => if isspace c then EmptyString else String c EmptyString
      | r' => String c r'
      end
  end.

(** [s.strip()] *)
Definition strip (s : string) : string := rstrip (lstrip s).

(** [s.startswith(p)], returning the rest of [s] after [p]. *)
Fixpoint strip_prefix (p s : string) : option string :=
  match p, s with
  | EmptyString, _ => Some s
  | String a p', String b s' => if Ascii.eqb a b then strip_prefix p' s' else None
  | String _ _, EmptyString => None
  end.

(** [sub in s] *)
Fixpoint contains (sub s : string) : bool :=
  match strip_prefix sub s with
  | Some _ => true
  | None => match s with
            | EmptyString => false
            | String _ r => contains sub r
            end
  end.

(** [s.replace(old, new)] for a non-empty [old]: leftmost occurrences,
    not overlapping. The fuel is the length of [s]. *)
Fixpoint replace_fuel (fuel : nat) (old new s : string) : string :=
  match fuel with
  | O => s
  | S fuel' =>
      match strip_prefix old s with
      | Some rest => new ++ replace_fuel fuel' old new rest
      | None => match s with
                | EmptyString => EmptyString
                | String c r => String c (replace_fuel fuel' old new r)
                end
      end
  end.

Definition replace (old new s : string) : string :=
  replace_fuel (String.length s) old new s.

(** [os.path.basename(p)] on POSIX paths. *)
Definition basename (p : string) : string := rsplit1_last "/" p.

(** *** Numbers: [int] is [Z], [float] is IEEE 754 binary64 *)

Definition prec : Z := 53.
Definition emax : Z := 1024.

Inductive num :=
  | NInt (z : Z)
  | NFloat (f : spec_float).

(** [float(z)]: correctly rounded, [OverflowError] beyond the range. *)
Definition float_of_int (z : Z) : result spec_float :=
  match binary_normalize prec emax z 0 false with
  | S754_infinity _ => Raise (mk_exn OverflowError "int too large to convert to float")
  | f => Ok f
  end.

(** The binary64 float of value [z * 2^k], for [0 < z < 2^53]: the
    mantissa is shifted to 53 bits. *)
Definition float_pow2 (z k : Z) : spec_float :=
  let d := Z.log2 z + 1 in
  S754_finite false (Z.to_pos (z * 2 ^ (prec - d))) (d - prec + k).

(** [f * g], [f / g] and [f - g] on floats; only division raises. *)
Definition fmul (f g : spec_float) : spec_float := SFmul prec emax f g.

Definition fsub (f g : spec_float) : spec_float := SFsub prec emax f g.

Definition fdiv (f g : spec_float) : result spec_float :=
  match g with
  | S754_zero _ => Raise (mk_exn ZeroDivisionError "float division by zero")
  | _ => Ok (SFdiv prec emax f g)
  end.

(** The literal [100.0]. *)
Definition f100 : spec_float :=
  Eval vm_compute in binary_normalize prec emax 100 0 false.

(** The exact value of a number, [m * 2^e], or an infinity, or no value. *)
Inductive xreal :=
  | XNaN
  | XInf (neg : bool)
  | XFin (m e : Z).

Definition xreal_of_float (f : spec_float) : xreal :=
  match f with
  | S754_zero _ => XFin 0 0
  | S754_infinity s => XInf s
  | S754_nan => XNaN
  | S754_finite s m e => XFin (cond_Zopp s (Zpos m)) e
  end.

Definition xreal_of_num (n : num) : xreal :=
  match n with
  | NInt z => XFin z 0
  | NFloat f => xreal_of_float f
  end.

(** Comparison of [m1 * 2^e1] with [m2 * 2^e2] at the smaller exponent. *)
Definition fin_compare (m1 e1 m2 e2 : Z) : comparison :=
  let e := Z.min e1 e2 in
  Z.compare (m1 * 2 ^ (e1 - e)) (m2 * 2 ^ (e2 - e)).

(** Python compares numbers by value, also an [int] with a [float];
    every comparison with a NaN is false. *)
Definition num_compare (a b : num) : option comparison :=
  match xreal_of_num a, xreal_of_num b with
  | XNaN, _ | _, XNaN => None
  | XInf s1, XInf s2 =>
      Some (match s1, s2 with
            | true, false => Lt
            | false, true => Gt
            | _, _ => Eq
            end)
  | XInf s, XFin _ _ => Some (if s then Lt else Gt)
  | XFin _ _, XInf s => Some (if s then Gt else Lt)
  | XFin m1 e1, XFin m2 e2 => Some (fin_compare m1 e1 m2 e2)
  end.

(** [a < b] and [a > b] *)
Definition num_lt (a b : num) : bool :=
  match num_compare a b with
  | Some Lt => true
  | _ => false
  end.

Definition num_gt (a b : num) : bool :=
  match num_compare a b with
  | Some Gt => true
  | _ => false
  end.

(** [max((a, b))] and [min((a, b))]: the first of the largest (smallest)
    items, so the second item wins only when strictly beyond the first. *)
Definition py_max (a b : num) : num := if num_gt b a then b else a.

Definition py_min (a b : num) : num := if num_lt b a then b else a.

(** The same on two floats. *)
Definition float_max (a b : spec_float) : spec_float :=
  if num_gt (NFloat b) (NFloat a) then b else a.

Definition float_min (a b : spec_float) : spec_float :=
  if num_lt (NFloat b) (NFloat a) then b else a.

(** [int(x)]: truncation toward zero. *)
Definition py_int (x : num) : result Z :=
  match xreal_of_num x with
  | XNaN => Raise (mk_exn ValueError "cannot convert float NaN to integer")
  | XInf _ => Raise (mk_exn OverflowError "cannot convert float infinity to integer")
  | XFin m e => Ok (if 0 <=? e then m * 2 ^ e else Z.quot m (2 ^ (- e)))
  end.

(** The integer nearest to [m / d] for [d > 0], ties to the even one. *)
Definition rne_div (m d : Z) : Z :=
  let q := m / d in
  match Z.compare (2 * (m mod d)) d with
  | Lt => q
  | Gt => q + 1
  | Eq => if Z.even q then q else q + 1
  end.

(** [int(round(x, 0))] on a float: Python 3 rounds the exact value to
    the nearest integer, ties to even, and returns it as a float, which
    [int] converts exactly; infinities and NaN round to themselves and
    [int] refuses them. *)
Definition py_int_round0 (x : num) : result Z :=
  match xreal_of_num x with
  | XNaN => Raise (mk_exn ValueError "cannot convert float NaN to integer")
  | XInf _ => Raise (mk_exn OverflowError "cannot convert float infinity to integer")
  | XFin m e => Ok (if 0 <=? e then m * 2 ^ e else rne_div m (2 ^ (- e)))
  end.

(** [r] is the integer nearest to [m * 2^e], the even one of two at the
    same distance. *)
Definition nearest_even (m e r : Z) : Prop :=
  if 0 <=? e then r = m * 2 ^ e
  else 2 * Z.abs (r * 2 ^ (- e) - m) <= 2 ^ (- e) /\
       (2 * Z.abs (r * 2 ^ (- e) - m) = 2 ^ (- e) -> Z.even r = true).

(** [a >= b] *)
Definition num_ge (a b : num) : bool :=
  match num_compare a b with
  | Some Eq | Some Gt => true
  | _ => false
  end.

(** *** Calls that change a state [S] and may raise

    The state reached when the exception was raised is kept: what was
    written before the failure stays written. *)
Definition M (S A : Type) : Type := S -> result A * S.

Definition ret {S A} (a : A) : M S A := fun st => (Ok a, st).

Definition raise {S A} (e : exn) : M S A := fun st => (Raise e, st).

Definition lift {S A} (r : result A) : M S A := fun st => (r, st).

Definition mbind {S A B} (c : M S A) (k : A -> M S B) : M S B :=
  fun st =>
    match c st with
    | (Ok a, st') => k a st'
    | (Raise e, st') => (Raise e, st')
    end.

(** [try: c  except Exception as exc: handler(exc)] *)
Definition try_except {S A} (c : M S A) (handler : exn -> M S A) : M S A :=
  fun st =>
    match c st with
    | (Ok a, st') => (Ok a, st')
    | (Raise e, st') => handler e st'
    end.

(** [for x in l: body(x)] *)
Fixpoint for_each {S A} (body : A -> M S unit) (l : list A) : M S unit :=
  match l with
  | [] => ret tt
  | x :: r => mbind (body x) (fun _ => for_each body r)
  end.

End Py.

(** [do] sequences calls that may raise, [run] calls that also change a
    state. *)
Module Export PyNotations.
Notation "'do' x <~ c ; k" := (Py.bind c (fun x => k))
  (at level 10, x pattern, c at level 100, k at level 200).
Notation "'run' x <~ c ; k" := (Py.mbind c (fun x => k))
  (at level 10, x pattern, c at level 100, k at level 200).
End PyNotations.

(** ** The image object of the codec (PIL), as far as the code uses it *)

Module PIL.

(** The operations applied to an image, newest first. *)
Inductive op :=
  | Convert (mode : string)
  | Resize (width height : Z)
  | Crop (left upper right lower : Z).

Record image := Image {
  size : Z * Z;
  mode : string;
  has_transparency : bool;   (* ["transparency" in image.info] *)
  history : list op
}.

(** [image.convert(m)] *)
Definition convert (im : image) (m : string) : image :=
  Image (size im) m (has_transparency im) (Convert m :: history im).

(** [image.resize((w, h), resample=LANCZOS)]: a request for the image's
    own size returns a copy of it before anything is checked; any other
    size with a width or a height below 1 is refused. *)
Definition resize (im : image) (wh : Z * Z) : Py.result image :=
  let resized :=
    Image wh (mode im) (has_transparency im) (Resize (fst wh) (snd wh) :: history im) in
  if (Z.eqb (fst (size im)) (fst wh) && Z.eqb (snd (size im)) (snd wh))%bool
  then Py.Ok resized
  else if ((fst wh <? 1) || (snd wh <? 1))%bool
       then Py.Raise (Py.mk_exn Py.ValueError "height and width must be > 0")
       else Py.Ok resized.

(** [image.crop((l, u, r, b))]: the result has size [(r - l, b - u)]. *)
Definition crop (im : image) (l u r b : Z) : image :=
  Image (r - l, b - u) (mode im) (has_transparency im) (Crop l u r b :: history im).

(** The codec proper: [Image.open(content)] and
    [image.save(buffer, format=fmt)] yielding the buffer's bytes. *)
Record codec := Codec {
  open : string -> Py.result image;
  save : image -> string -> Py.result string
}.

End PIL.

(** ** athumb/utils.py *)

Module Utils.
Import Py.

(** [_X_ALIAS_PERCENT] and [_Y_ALIAS_PERCENT] *)
Definition _X_ALIAS_PERCENT (k : string) : option string :=
  if String.eqb k "left" then Some "0%"
  else if String.eqb k "center" then Some "50%"
  else if String.eqb k "right" then Some "100%"
  else None.

Definition _Y_ALIAS_PERCENT (k : string) : option string :=
  if String.eqb k "top" then Some "0%"
  else if String.eqb k "center" then Some "50%"
  else if String.eqb k "bottom" then Some "100%"
  else None.

(** [d.get(k, k)] *)
Definition get_or_self (d : string -> option string) (k : string) : string :=
  match d k with
  | Some v => v
  | None => k
  end.

(** [_CROP_PERCENT_PATTERN = ^(\d+)(%|px)$] on ASCII input. *)
Inductive crop_unit := Percent | Pixels.

Definition is_digit (c : ascii) : bool :=
  let n := nat_of_ascii c in (Nat.leb 48 n && Nat.leb n 57)%bool.

(** The longest prefix of digits, read as a decimal number, the number of
    digits read and the rest of the string. *)
Fixpoint read_digits (acc : Z) (count : nat) (s : string) : Z * nat * string :=
  match s with
  | EmptyString => (acc, count, s)
  | String c r =>
      if is_digit c
      then read_digits (10 * acc + Z.of_nat (nat_of_ascii c - 48)) (S count) r
      else (acc, count, s)
  end.

Definition newline : string := String (ascii_of_nat 10) EmptyString.

(** [(%|px)$]: [$] also matches just before a final newline. *)
Definition read_unit (s : string) : option crop_unit :=
  if (String.eqb s "%" || String.eqb s ("%" ++ newline))%bool then Some Percent
  else if (String.eqb s "px" || String.eqb s ("px" ++ newline))%bool then Some Pixels
  else None.

(** [m = _CROP_PERCENT_PATTERN.match(s)] with [int(m.group("value"))] and
    [m.group("unit")]. *)
Definition match_crop_pattern (s : string) : option (Z * crop_unit) :=
  let '(value, count, rest) := read_digits 0 O s in
  match count with
  | O => None
  | S _ => match read_unit rest with
           | Some u => Some (value, u)
           | None => None
           end
  end.

Definition get_cropping_offset (crop_option : string) (epsilon : spec_float) : result Z :=
  match match_crop_pattern crop_option with
  | None => Raise (mk_exn ThumbnailParseError ("Unrecognized crop option: " ++ crop_option))
  | Some (value, unit) =>
      do value <~ match unit with
                  | Percent =>
                      do v <~ float_of_int value;
                      do q <~ fdiv (fmul epsilon v) f100;
                      Ok (NFloat q)
                  | Pixels => Ok (NInt value)
                  end;
      py_int (py_max (NInt 0) (py_min value (NFloat epsilon)))
  end.

Definition parse_crop (crop_option : string) (xy_image : spec_float * spec_float)
    (xy_window : Z * Z) : result (Z * Z) :=
  let xy_crop := split " " crop_option in
  do (x_crop, y_crop) <~
    match xy_crop with
    | [_] =>
        match _X_ALIAS_PERCENT crop_option with
        | Some x => Ok (x, "50%")
        | None =>
            match _Y_ALIAS_PERCENT crop_option with
            | Some y => Ok ("50%", y)
            | None => Ok (crop_option, crop_option)
            end
        end
    | [x; y] => Ok (get_or_self _X_ALIAS_PERCENT x, get_or_self _Y_ALIAS_PERCENT y)
    | _ => Raise (mk_exn ThumbnailParseError ("Unrecognized crop option: " ++ crop_option))
    end;
  do wx <~ float_of_int (fst xy_window);
  do offset_x <~ get_cropping_offset x_crop (fsub (fst xy_image) wx);
  do wy <~ float_of_int (snd xy_window);
  do offset_y <~ get_cropping_offset y_crop (fsub (snd xy_image) wy);
  Ok (offset_x, offset_y).

Definition round_to_int (number : num) : result Z :=
  match number with
  | NFloat f => py_int_round0 (NFloat f)
  | NInt z => py_int (NInt z)
  end.

Definition convert_colorspace (image : PIL.image) (colorspace : string) : PIL.image :=
  if String.eqb colorspace "RGB" then
    if String.eqb (PIL.mode image) "RGBA" then image
    else if (String.eqb (PIL.mode image) "P" && PIL.has_transparency image)%bool
         then PIL.convert image "RGBA"
         else PIL.convert image "RGB"
  else if String.eqb colorspace "GRAY" then PIL.convert image "L"
  else image.

(** [x_image, y_image = map(float, image.size)] *)
Definition float_size (image : PIL.image) : result (spec_float * spec_float) :=
  do x_image <~ float_of_int (fst (PIL.size image));
  do y_image <~ float_of_int (snd (PIL.size image));
  Ok (x_image, y_image).

Definition crop (image : PIL.image) (target_size : Z * Z) (crop_option : string)
    : result PIL.image :=
  do (x_image, y_image) <~ float_size image;
  do (x_offset, y_offset) <~ parse_crop crop_option (x_image, y_image) target_size;
  Ok (PIL.crop image x_offset y_offset
        (fst target_size + x_offset) (snd target_size + y_offset)).

(** Truth value of [crop_option], which is [None] or a string. *)
Definition option_truthy (crop_option : option string) : bool :=
  match crop_option with
  | Some s => truthy (PyStr s)
  | None => false
  end.

(** [factors] and [factor] of [scale]. *)
Definition scale_factors (x_image y_image : spec_float) (target_size : Z * Z)
    : result (spec_float * spec_float) :=
  do tx <~ float_of_int (fst target_size);
  do fx <~ fdiv tx x_image;
  do ty <~ float_of_int (snd target_size);
  do fy <~ fdiv ty y_image;
  Ok (fx, fy).

Definition scale_factor (factors : spec_float * spec_float) (crop_option : option string)
    : spec_float :=
  if option_truthy crop_option
  then float_max (fst factors) (snd factors)
  else float_min (fst factors) (snd factors).

Definition scale (image : PIL.image) (target_size : Z * Z) (crop_option : option string)
    (upscale : bool) : result PIL.image :=
  do (x_image, y_image) <~ float_size image;
  do factors <~ scale_factors x_image y_image target_size;
  let factor := scale_factor factors crop_option in
  if (num_lt (NFloat factor) (NInt 1) || upscale)%bool then
    do width <~ round_to_int (NFloat (fmul x_image factor));
    do height <~ round_to_int (NFloat (fmul y_image factor));
    PIL.resize image (width, height)
  else Ok image.

End Utils.

(** ** The collaborators of the framework: storage, cache, settings *)

Module Django.
Import Py.

(** What the deployment fixes: the settings read by [fields.py], the
    storage backend's URL resolver and upload naming, and the files on
    which the backend refuses to write or delete. *)
Record env := Env {
  THUMBNAIL_URL_CACHE_TIME : Z;
  MEDIA_CACHE_BUSTER : string;
  storage_url : string -> string;
  generate_filename : string -> string;
  save_error : string -> option exn;
  delete_error : string -> option exn
}.

(** The stored files: name to content. *)
Abbreviation files := (gmap string string).

(** [storage.save(name, content)]; a file of that name is replaced. *)
Definition storage_save (E : env) (name content : string) : M files unit :=
  fun st =>
    match save_error E name with
    | Some e => (Raise e, st)
    | None => (Ok tt, <[name := content]> st)
    end.

(** [storage.exists(name)] *)
Definition storage_exists (st : files) (name : string) : bool :=
  bool_decide (is_Some (st !! name)).

(** [storage.delete(name)]; deleting a file that is gone is no error. *)
Definition storage_delete (E : env) (name : string) : M files unit :=
  fun st =>
    match delete_error E name with
    | Some e => (Raise e, st)
    | None => (Ok tt, delete name st)
    end.

(** [file.read()] of the stored file [name]. *)
Definition storage_read (name : string) : M files string :=
  fun st =>
    match st !! name with
    | Some content => (Ok content, st)
    | None => (Raise (mk_exn FileNotFoundError ("No such file or directory: " ++ name)), st)
    end.

(** The cache and the number of calls made so far to the storage
    backend's URL resolver. Entries are live: none expires. *)
Record url_state := UrlState {
  cache : gmap string string;
  url_calls : nat
}.

(** [cache.get(key)] and [cache.set(key, value, timeout)] *)
Definition cache_get (key : string) : M url_state (option string) :=
  fun st => (Ok (cache st !! key), st).

Definition cache_set (key value : string) (timeout : Z) : M url_state unit :=
  fun st => (Ok tt, UrlState (<[key := value]> (cache st)) (url_calls st)).

End Django.

(** ** athumb/fields.py *)

Module Fields.
Import Py Django.

(** The value under ["size"] of a thumbnail's options: a tuple of two
    integers, or something that is not a tuple. *)
Inductive size_value :=
  | SizeTuple (width height : Z)
  | SizeOther (v : pyval).

(** The options dictionary of one thumbnail; [None] is an absent key. *)
Record thumb_options := ThumbOptions {
  opt_size : option size_value;
  opt_upscale : option pyval;
  opt_crop : option pyval
}.

(** [ImageWithThumbsField]: the attributes set by [__init__]. *)
Record ImageWithThumbsField := Field {
  thumbs : list (string * thumb_options);
  thumbnail_format : option string
}.

(** The keyword arguments [__init__] pops; [None] is an absent keyword,
    [Some None] is [thumbnail_format=None]. *)
Record kwargs := Kwargs {
  kw_thumbs : option (list (string * thumb_options));
  kw_thumbnail_format : option (option string)
}.

Definition ImageWithThumbsField__init__ (kw : kwargs) : ImageWithThumbsField :=
  Field
    (match kw_thumbs kw with
     | Some t => t
     | None => []
     end)
    (match kw_thumbnail_format kw with
     | Some f => f
     | None => Some "JPEG"
     end).

(** [deconstruct]: the keyword arguments it adds to those of the
    framework's field, from which a migration builds the field again. *)
Definition deconstruct (self : ImageWithThumbsField) : kwargs :=
  Kwargs (Some (thumbs self)) (Some (thumbnail_format self)).

(** [ImageWithThumbsFieldFile]: the file's name and its field. *)
Record ImageWithThumbsFieldFile := FieldFile {
  name : string;
  field : ImageWithThumbsField
}.

(** Truth value of an optional string ([None] or a [str]). *)
Definition str_truthy (v : option string) : bool :=
  match v with
  | Some s => truthy (PyStr s)
  | None => false
  end.

Definition get_thumbnail_format (self : ImageWithThumbsFieldFile) : string :=
  if str_truthy (thumbnail_format (field self)) then
    match thumbnail_format (field self) with
    | Some f => lower f
    | None => EmptyString
    end
  else
    rsplit1_last "." (name self).

Definition _calc_thumb_filename (self : ImageWithThumbsFieldFile) (thumb_name : string)
    : string :=
  let file_name := rsplit1_first "." (name self) in
  let file_extension := get_thumbnail_format self in
  file_name ++ "_" ++ thumb_name ++ "." ++ file_extension.

Definition _create_thumbnail (image : PIL.image) (size : Z * Z)
    (crop_option : option string) (upscale : bool) : result PIL.image :=
  let image := Utils.convert_colorspace image "RGB" in
  do image <~ Utils.scale image size crop_option upscale;
  match crop_option with
  | Some c => if Utils.option_truthy crop_option then Utils.crop image size c else Ok image
  | None => Ok image
  end.

(** [d.get(key, default)] and the truth value of the result. *)
Definition get_default (v : option pyval) (default : pyval) : pyval :=
  match v with
  | Some x => x
  | None => default
  end.

Section WithCollaborators.
Variable E : env.
Variable codec : PIL.codec.

Definition create_and_store_thumb (self : ImageWithThumbsFieldFile) (image : PIL.image)
    (thumb_name : string) (thumb_options : thumb_options) : M files unit :=
  match opt_size thumb_options with
  | None => raise (mk_exn KeyError "'size'")
  | Some (SizeOther size) =>
      raise (mk_exn UploadedImageIsUnreadableError
               ("incorrect size specifications $" ++ str size))
  | Some (SizeTuple width height) =>
      let size := (width, height) in
      let upscale := get_default (opt_upscale thumb_options) (PyBool true) in
      let crop := get_default (opt_crop thumb_options) PyNone in
      let crop_option := if truthy crop then Some "center" else None in
      let thumb_filename := _calc_thumb_filename self thumb_name in
      let file_extension := get_thumbnail_format self in
      run image <~ lift (_create_thumbnail image size crop_option (truthy upscale));
      run thumb_content <~ lift (PIL.save codec image file_extension);
      storage_save E thumb_filename thumb_content
  end.

Definition generate_thumbs (self : ImageWithThumbsFieldFile) (name content : string)
    : M files unit :=
  run image <~ lift (PIL.open codec content);
  for_each
    (fun thumb =>
       let '(thumb_name, thumb_options) := thumb in
       let image_copy := image in
       create_and_store_thumb self image_copy thumb_name thumb_options)
    (thumbs (field self)).

(** [ImageFieldFile.save] of the framework: the file is stored under the
    name the field generates and that name becomes [self.name]. *)
Definition super_save (self : ImageWithThumbsFieldFile) (name content : string)
    : M files ImageWithThumbsFieldFile :=
  let stored := generate_filename E name in
  run _ <~ storage_save E stored content;
  ret (FieldFile stored (field self)).

Definition unreadable : exn :=
  mk_exn UploadedImageIsUnreadableError
    ("We were unable to read the uploaded image. " ++
     "Please make sure you are uploading a valid image file.").

Definition save (self : ImageWithThumbsFieldFile) (name content : string)
    : M files ImageWithThumbsFieldFile :=
  run self <~ super_save self name content;
  try_except
    (run _ <~ generate_thumbs self name content; ret self)
    (fun exc =>
       if is_IOError exc then
         run message <~ lift (getattr exc "message");
         if contains "cannot identify" message then raise unreadable
         else
           run message <~ lift (getattr exc "message");
           if contains "bad EPS header" message then raise unreadable
           else raise exc
       else raise exc).

(** [ImageFieldFile.delete] of the framework: the original is deleted
    from storage and [self.name] is cleared. *)
Definition super_delete (self : ImageWithThumbsFieldFile)
    : M files ImageWithThumbsFieldFile :=
  if truthy (PyStr (name self)) then
    run _ <~ storage_delete E (name self);
    ret (FieldFile EmptyString (field self))
  else ret self.

Definition delete (self : ImageWithThumbsFieldFile) : M files ImageWithThumbsFieldFile :=
  run _ <~ for_each
    (fun thumb =>
       let '(thumb_name, thumb_options) := thumb in
       let thumb_filename := _calc_thumb_filename self thumb_name in
       storage_delete E thumb_filename)
    (thumbs (field self));
  super_delete self.

(** [self.url], a property of the framework's file object: every access
    asks the storage backend to resolve the file's name. *)
Definition url (self : ImageWithThumbsFieldFile) : M url_state string :=
  fun st =>
    if truthy (PyStr (name self))
    then (Ok (storage_url E (name self)), UrlState (cache st) (S (url_calls st)))
    else (Raise (mk_exn ValueError "The attribute has no file associated with it."), st).

Definition generate_url (self : ImageWithThumbsFieldFile) (thumb_name : string)
    (ssl_mode check_cache cache_bust : bool) : M url_state string :=
  let ssl_postfix := if ssl_mode then "_ssl" else "" in
  let miss (cache_key : option string) : M url_state string :=
    let new_filename := _calc_thumb_filename self thumb_name in
    run self_url <~ url self;
    let url_str := rsplit1_first "?" self_url in
    let url_minus_filename := rsplit1_first "/" url_str in
    let new_url := url_minus_filename ++ "/" ++ basename new_filename in
    let new_url :=
      if (cache_bust && truthy (PyStr (MEDIA_CACHE_BUSTER E)))%bool
      then new_url ++ "?cbust=" ++ MEDIA_CACHE_BUSTER E
      else new_url in
    let new_url := if ssl_mode then replace "http://" "https://" new_url else new_url in
    run _ <~ (if str_truthy cache_key
              then match cache_key with
                   | Some k => cache_set k new_url (THUMBNAIL_URL_CACHE_TIME E)
                   | None => ret tt
                   end
              else ret tt);
    ret new_url in
  if check_cache then
    run self_url <~ url self;
    let cache_key := strip ("Thumbcache_" ++ self_url ++ "_" ++ thumb_name ++ ssl_postfix) in
    run cached_val <~ cache_get cache_key;
    if str_truthy cached_val
    then match cached_val with
         | Some v => ret v
         | None => miss (Some cache_key)
         end
    else miss (Some cache_key)
  else miss None.

End WithCollaborators.

End Fields.

(** ** athumb/management/commands/athumb_regen_field.py *)

Module Regen.
Import Py Django Fields.

(** A model instance: its id and the value of the field being
    regenerated, [getattr(instance, self.field)]. *)
Record instance := Instance {
  id : Z;
  file_of : ImageWithThumbsFieldFile
}.

(** The options of the command that the run reads. *)
Record Command := Cmd {
  force_regen : bool
}.

(** The line printed for an instance once its case is settled. *)
Inductive outcome :=
  | SkippedNoFile            (* "Skipped -- No file" *)
  | SkippedAlreadyProcessed  (* "Skipped -- Already processed" *)
  | SkippedExists            (* "Skipped -- All thumbnails exist" *)
  | Processed                (* generate_thumbs returned *)
  | ErrorMissingSource       (* "Error -- File missing in storage" *)
  | ErrorCorrupt.            (* "Error -- Image may be corrupt" *)

(** The local variables of [regenerate_thumbs], the storage and the
    settled lines, oldest first. *)
Record loop_state := LoopState {
  storage : files;
  regen_tracker : gset string;
  processed_count : nat;
  skipped_no_file : nat;
  skipped_exists : nat;
  error_count : nat;
  printed : list outcome
}.

Definition initial (st : files) : loop_state := LoopState st ∅ 0 0 0 0 [].

(** A call on the storage, made from within the loop. *)
Definition on_storage {A} (c : M files A) : M loop_state A :=
  fun s =>
    let '(r, st) := c (storage s) in
    (r, LoopState st (regen_tracker s) (processed_count s) (skipped_no_file s)
          (skipped_exists s) (error_count s) (printed s)).

Definition print (o : outcome) : M loop_state unit :=
  fun s =>
    (Ok tt, LoopState (storage s) (regen_tracker s) (processed_count s) (skipped_no_file s)
              (skipped_exists s) (error_count s) (printed s ++ [o])%list).

(** [processed_count += 1] and its three siblings *)
Definition incr_processed : M loop_state unit :=
  fun s =>
    (Ok tt, LoopState (storage s) (regen_tracker s) (S (processed_count s)) (skipped_no_file s)
              (skipped_exists s) (error_count s) (printed s)).

Definition incr_skipped_no_file : M loop_state unit :=
  fun s =>
    (Ok tt, LoopState (storage s) (regen_tracker s) (processed_count s) (S (skipped_no_file s))
              (skipped_exists s) (error_count s) (printed s)).

Definition incr_skipped_exists : M loop_state unit :=
  fun s =>
    (Ok tt, LoopState (storage s) (regen_tracker s) (processed_count s) (skipped_no_file s)
              (S (skipped_exists s)) (error_count s) (printed s)).

Definition incr_error : M loop_state unit :=
  fun s =>
    (Ok tt, LoopState (storage s) (regen_tracker s) (processed_count s) (skipped_no_file s)
              (skipped_exists s) (S (error_count s)) (printed s)).

(** [regen_tracker[file_name] = True] and [file_name in regen_tracker] *)
Definition track (file_name : string) : M loop_state unit :=
  fun s =>
    (Ok tt, LoopState (storage s) ({[file_name]} ∪ regen_tracker s) (processed_count s)
              (skipped_no_file s) (skipped_exists s) (error_count s) (printed s)).

Definition tracked (file_name : string) : M loop_state bool :=
  fun s => (Ok (bool_decide (file_name ∈ regen_tracker s)), s).

(** The field is an [ImageWithThumbsField], so both [hasattr] tests pass. *)
Definition get_missing_thumbnails (file_field : ImageWithThumbsFieldFile) (st : files)
    : list string :=
  fold_left
    (fun missing_thumbs thumb =>
       let '(thumb_name, thumb_options) := thumb in
       let thumb_filename := _calc_thumb_filename file_field thumb_name in
       if negb (storage_exists st thumb_filename)
       then (missing_thumbs ++ [thumb_name])%list
       else missing_thumbs)
    (thumbs (field file_field)) [].

Definition needs_regeneration (self : Command) (file_field : ImageWithThumbsFieldFile)
    (st : files) : bool :=
  if force_regen self then true
  else
    let missing_thumbs := get_missing_thumbnails file_field st in
    (0 <? length missing_thumbs)%nat.

Section WithCollaborators.
Variable E : env.
Variable codec : PIL.codec.

(** The body of the loop over the instances; [continue] is [ret tt]. *)
Definition regenerate_one (self : Command) (instance : instance) : M loop_state unit :=
  let file := file_of instance in
  if negb (truthy (PyStr (name file))) then
    run _ <~ print SkippedNoFile;
    incr_skipped_no_file
  else
    let file_name := basename (name file) in
    run seen <~ tracked file_name;
    if seen then
      run _ <~ print SkippedAlreadyProcessed;
      incr_skipped_exists
    else
      run all_exist <~
        (fun s =>
           if negb (needs_regeneration self file (storage s)) then
             match get_missing_thumbnails file (storage s) with
             | [] => (Ok true, s)
             | _ :: _ => (Ok false, s)
             end
           else (Ok false, s));
      if all_exist then
        run _ <~ print SkippedExists;
        run _ <~ incr_skipped_exists;
        track file_name
      else
        run fdat <~
          try_except
            (run fdat <~ on_storage (storage_read (name file)); ret (Some fdat))
            (fun exc =>
               if is_IOError exc then
                 run _ <~ print ErrorMissingSource;
                 run _ <~ incr_error;
                 ret None
               else raise exc);
        match fdat with
        | None => ret tt
        | Some fdat =>
            (* ContentFile(fdat) does not raise on bytes that were read *)
            let file_contents := fdat in
            run done <~
              try_except
                (run _ <~ on_storage (generate_thumbs E codec file file_name file_contents);
                 run _ <~ incr_processed;
                 ret true)
                (fun e =>
                   if is_IOError e then
                     run _ <~ print ErrorCorrupt;
                     run _ <~ incr_error;
                     ret false
                   else raise e);
            if done : bool then
              run _ <~ print Processed;
              track file_name
            else ret tt
        end.

Definition regenerate_thumbs (self : Command) (instances : list instance) (st : files)
    : result unit * loop_state :=
  for_each (regenerate_one self) instances (initial st).

End WithCollaborators.

(** All the thumbnails of a file are stored. *)
Definition all_exist (st : files) (f : ImageWithThumbsFieldFile) : Prop :=
  Forall (fun thumb => storage_exists st (_calc_thumb_filename f (fst thumb)) = true)
         (thumbs (field f)).

(** [bool(file)]: the instance has a file. *)
Definition has_file (x : instance) : bool := truthy (PyStr (name (file_of x))).

(** The lines for a file whose thumbnails are, or were made, complete, and
    the two lines that count as [skipped_exists]. *)
Definition completed (o : outcome) : bool :=
  match o with
  | Processed | SkippedExists | SkippedAlreadyProcessed => true
  | _ => false
  end.

Definition skipped_as_existing (o : outcome) : bool :=
  match o with
  | SkippedExists | SkippedAlreadyProcessed => true
  | _ => false
  end.

(** What a rerun does with an instance it has nothing to do for. *)
Definition settled_again (x : instance) (s2 sb : loop_state) (o2 : outcome) : Prop :=
  printed sb = (printed s2 ++ [o2])%list /\
  storage sb = storage s2 /\
  processed_count sb = processed_count s2 /\
  error_count sb = error_count s2 /\
  regen_tracker s2 ⊆ regen_tracker sb /\
  if has_file x
  then skipped_as_existing o2 = true /\
       basename (name (file_of x)) ∈ regen_tracker sb /\
       skipped_exists sb = S (skipped_exists s2) /\
       skipped_no_file sb = skipped_no_file s2
  else o2 = SkippedNoFile /\
       skipped_exists sb = skipped_exists s2 /\
       skipped_no_file sb = S (skipped_no_file s2).

(** How the line of a rerun answers the line of the first run. *)
Definition agree (o1 o2 : outcome) : Prop :=
  (o1 = SkippedNoFile -> o2 = SkippedNoFile) /\
  (completed o1 = true -> skipped_as_existing o2 = true).

(** *** The arguments of the command *)

(** What the command raises before the loop starts: [CommandError], and
    the [IndexError] of [app_split[1]]. *)
Inductive input_error :=
  | CommandError (msg : string)
  | IndexError.

Definition validate_input (model_name : string) : input_error + unit :=
  if negb (contains "." model_name)
  then inl (CommandError "The first argument must be in the format of: app.model")
  else inr tt.

(** [ContentType.objects.get(app_label=app, model=model_name)], which is
    [None] for [DoesNotExist], gives the result of the content type's
    [model_class()], itself a class or [None]. The result is [self.model]
    and [self.field]. *)
Definition parse_input {Model : Type}
    (content_types : string -> string -> option (option Model))
    (model_name field_name : string) : input_error + (option Model * string) :=
  let app_split := split "." model_name in
  match app_split with
  | app :: second :: _ =>
      let model_name' := lower second in
      match content_types app model_name' with
      | Some model => inr (model, field_name)
      | None => inl (CommandError ("There is no app/model combination: " ++ model_name))
      end
  | _ => inl IndexError
  end.

(** *** The summary *)

(** The number of settled instances of one kind. *)
Definition lines (kind : outcome -> bool) (l : list outcome) : nat :=
  length (List.filter kind l).

Definition is_processed (o : outcome) : bool :=
  match o with Processed => true | _ => false end.

Definition is_no_file (o : outcome) : bool :=
  match o with SkippedNoFile => true | _ => false end.

Definition is_error (o : outcome) : bool :=
  match o with ErrorMissingSource | ErrorCorrupt => true | _ => false end.

End Regen.

(** ** What the specification states, in its own words *)

Module Spec.
Import Py Django Fields.

(** "A failure generating one variant must not prevent attempting the
    remaining variants, and must be surfaced as part of the aggregate
    result": every item is attempted in order and the failures are
    collected. *)
Fixpoint attempt_all {S A} (body : A -> M S unit) (l : list A) (st : S)
    : list (A * exn) * S :=
  match l with
  | [] => ([], st)
  | x :: r =>
      match body x st with
      | (Ok _, st') => attempt_all body r st'
      | (Raise e, st') =>
          let '(failures, st'') := attempt_all body r st' in
          ((x, e) :: failures, st'')
      end
  end.

Definition generateThumbnails (E : env) (codec : PIL.codec)
    (self : ImageWithThumbsFieldFile) (content : string) (st : files)
    : result (list (string * thumb_options * exn)) * files :=
  match PIL.open codec content with
  | Raise e => (Raise e, st)
  | Ok image =>
      let '(failures, st') :=
        attempt_all
          (fun thumb => create_and_store_thumb E codec self image (fst thumb) (snd thumb))
          (thumbs (field self)) st in
      (Ok failures, st')
  end.

(** "Rounded to the nearest integer (ties away from zero)": the integer
    nearest to [m / d] for [d > 0], and the rounding of a finite float. *)
Definition round_half_away_div (m d : Z) : Z :=
  let q := Z.abs m / d in
  let r := if 2 * (Z.abs m mod d) <? d then q else q + 1 in
  if m <? 0 then - r else r.

Definition round_half_away (f : spec_float) : option Z :=
  match xreal_of_float f with
  | XFin m e => Some (if 0 <=? e then m * 2 ^ e else round_half_away_div m (2 ^ (- e)))
  | _ => None
  end.

End Spec.

(** ** Concrete collaborators and inputs for the examples *)

Module Fixtures.
Import Py Django Fields Regen.

(** A codec that decodes every content starting with [IMG] to a 200x400
    RGB image and refuses anything else the way PIL does. It refuses to
    encode an RGBA image as JPEG and otherwise encodes an image as a line
    that tells its format, its size and the operations applied to it,
    newest first. *)
Definition fake_open (content : string) : result PIL.image :=
  match strip_prefix "IMG" content with
  | Some _ => Ok (PIL.Image (200, 400) "RGB" false [])
  | None => Raise (mk_exn UnidentifiedImageError "cannot identify image file")
  end.

Definition describe_op (o : PIL.op) : string :=
  match o with
  | PIL.Convert m => " convert(" ++ m ++ ")"
  | PIL.Resize w h => " resize(" ++ pretty w ++ "," ++ pretty h ++ ")"
  | PIL.Crop l u r b =>
      " crop(" ++ pretty l ++ "," ++ pretty u ++ "," ++ pretty r ++ "," ++ pretty b ++ ")"
  end.

Definition describe (im : PIL.image) (fmt : string) : string :=
  fmt ++ " " ++ pretty (fst (PIL.size im)) ++ "x" ++ pretty (snd (PIL.size im)) ++
  fold_right (fun o acc => describe_op o ++ acc) "" (PIL.history im).

Definition fake_save (im : PIL.image) (fmt : string) : result string :=
  if (String.eqb (PIL.mode im) "RGBA" && String.eqb (lower fmt) "jpeg")%bool
  then Raise (mk_exn OSError "cannot write mode RGBA as JPEG")
  else Ok (describe im fmt).

Definition fake_codec : PIL.codec := PIL.Codec fake_open fake_save.

(** A deployment without cache buster whose backend never refuses. *)
Definition plain_env : env :=
  Env 86400 "" (fun name => "http://media.test/" ++ name) (fun name => name)
      (fun _ => None) (fun _ => None).

(** The same with a backend that refuses to delete [a/photo_small.jpeg]. *)
Definition locked_env : env :=
  Env 86400 "" (fun name => "http://media.test/" ++ name) (fun name => name)
      (fun _ => None)
      (fun name => if String.eqb name "a/photo_small.jpeg"
                   then Some (mk_exn PermissionError "Permission denied")
                   else None).

Definition fit (w h : Z) : thumb_options :=
  ThumbOptions (Some (SizeTuple w h)) None None.

Definition cover (w h : Z) (crop : pyval) : thumb_options :=
  ThumbOptions (Some (SizeTuple w h)) None (Some crop).

(** Three variants, the second with a value that is no tuple where the
    size belongs; it is rendered in the message as the list [[300, 300]]
    is. *)
Definition broken_thumbs : list (string * thumb_options) :=
  [("small", fit 100 100);
   ("medium", ThumbOptions (Some (SizeOther (PyStr "[300, 300]"))) None None);
   ("large", fit 150 150)].

Definition two_thumbs : list (string * thumb_options) :=
  [("small", fit 100 100); ("large", cover 50 50 (PyStr "center"))].

Definition photo (thumbs : list (string * thumb_options)) : ImageWithThumbsFieldFile :=
  FieldFile "a/photo.png" (Field thumbs (Some "JPEG")).

Definition small_image (w h : Z) : PIL.image := PIL.Image (w, h) "RGB" false [].

(** Three instances: two share the file [a/photo.png], one has no file;
    the storage holds the original. *)
Definition dataset : list instance :=
  [Instance 1 (photo two_thumbs);
   Instance 2 (FieldFile "" (Field two_thumbs (Some "JPEG")));
   Instance 3 (photo two_thumbs)].

Definition originals : files := {["a/photo.png" := "IMG original"]}.

Definition first_run : result unit * loop_state :=
  regenerate_thumbs plain_env fake_codec (Cmd false) dataset originals.

Definition second_run : result unit * loop_state :=
  regenerate_thumbs plain_env fake_codec (Cmd false) dataset (storage (snd first_run)).

(** The storage after [a/photo.png] was saved with its two thumbnails. *)
Definition stored_photo : files :=
  snd (save plain_env fake_codec (photo two_thumbs) "a/photo.png" "IMG" ∅).

End Fixtures.

(** * Properties *)

Import Py Django Fields.

(** ** Strings *)

Lemma rsplit1_absent (sep : ascii) (s : string) :
  ~ In sep (list_ascii_of_string s) -> rsplit1 sep s = None.
Proof.
  induction s as [|c r IH]; simpl; intros Hin; [reflexivity|].
  rewrite IH by tauto.
  destruct (Ascii.eqb_spec c sep) as [->|]; [tauto | reflexivity].
Qed.

Lemma rsplit1_last_sep (sep : ascii) (pre ext : string) :
  ~ In sep (list_ascii_of_string ext) ->
  rsplit1 sep (pre ++ String sep ext) = Some (pre, ext).
Proof.
  intros Hin. induction pre as [|c pre IH]; simpl.
  - rewrite (rsplit1_absent _ _ Hin), Ascii.eqb_refl. reflexivity.
  - rewrite IH. reflexivity.
Qed.

(** ** The format resolver *)

(** C8. [get_thumbnail_format] returns the lower-cased override whenever
    one is configured, and otherwise the part of the original file name
    after its last dot, as it is written; so [photo.PNG] is resolved to
    [PNG] without an override and to [jpeg] with the override [jpeg]. *)
Theorem C8_get_thumbnail_format_override_or_extension :
  forall (thumbs : list (string * thumb_options)) (original : string),
    (forall fmt, fmt <> "" ->
       get_thumbnail_format (FieldFile original (Field thumbs (Some fmt))) = lower fmt) /\
    (forall pre ext,
       original = pre ++ "." ++ ext -> ~ In "."%char (list_ascii_of_string ext) ->
       get_thumbnail_format (FieldFile original (Field thumbs None)) = ext) /\
    get_thumbnail_format (FieldFile "photo.PNG" (Field thumbs None)) = "PNG" /\
    get_thumbnail_format (FieldFile "photo.PNG" (Field thumbs (Some "jpeg"))) = "jpeg".
Proof.
  intros thumbs original. repeat split.
  - intros fmt Hfmt. unfold get_thumbnail_format; simpl.
    destruct (String.eqb_spec fmt "") as [->|_]; [congruence | reflexivity].
  - intros pre ext -> Hdot. unfold get_thumbnail_format, rsplit1_last; simpl.
    change (pre ++ "." ++ ext) with (pre ++ String "."%char ext).
    rewrite (rsplit1_last_sep "." pre ext Hdot). reflexivity.
Qed.

Lemma C8_witness :
  get_thumbnail_format (FieldFile "a/b.tar.GZ" (Field [] (Some "PNG"))) = "png" /\
  get_thumbnail_format (FieldFile "a/b.tar.GZ" (Field [] None)) = "GZ".
Proof.
  destruct (C8_get_thumbnail_format_override_or_extension [] "a/b.tar.GZ")
    as (Hover & Hext & _).
  split.
  - apply (Hover "PNG"). discriminate.
  - apply (Hext "a/b.tar" "GZ"); [reflexivity|].
    simpl. intros [H|[H|[]]]; discriminate.
Defined.

(** C10. A field built without a [thumbnail_format] keyword has the
    override [JPEG]: the override is taken, never the extension of the
    file name, and every file of the field resolves to [jpeg]. *)
Theorem C10_default_thumbnail_format_is_jpeg :
  forall (kw : kwargs) (original : string),
    kw_thumbnail_format kw = None ->
    thumbnail_format (ImageWithThumbsField__init__ kw) = Some "JPEG" /\
    str_truthy (thumbnail_format (ImageWithThumbsField__init__ kw)) = true /\
    get_thumbnail_format (FieldFile original (ImageWithThumbsField__init__ kw)) = "jpeg".
Proof.
  intros kw original Hkw.
  unfold get_thumbnail_format, ImageWithThumbsField__init__; simpl.
  rewrite Hkw. repeat split.
Qed.

Lemma C10_witness :
  get_thumbnail_format
    (FieldFile "photo.PNG" (ImageWithThumbsField__init__ (Kwargs (Some []) None))) = "jpeg".
Proof.
  apply (C10_default_thumbnail_format_is_jpeg
           (Kwargs (Some []) None) "photo.PNG" eq_refl).
Defined.

(** ** The thumbnail pipeline *)

Lemma for_each_app {S A} (body : A -> M S unit) (l1 l2 : list A) (st : S) :
  for_each body (l1 ++ l2)%list st =
  match for_each body l1 st with
  | (Ok _, st') => for_each body l2 st'
  | (Raise e, st') => (Raise e, st')
  end.
Proof.
  revert st. induction l1 as [|x l1 IH]; intros st; simpl; [reflexivity|].
  unfold mbind. destruct (body x st) as [[[]|e] st']; [apply IH | reflexivity].
Qed.

Section Pipeline.
Variable E : env.
Variable codec : PIL.codec.

(** A variant that fails has stored nothing. *)
Lemma create_and_store_thumb_raise_unchanged self image thumb_name options e st st' :
  create_and_store_thumb E codec self image thumb_name options st = (Raise e, st') ->
  st' = st.
Proof.
  unfold create_and_store_thumb.
  destruct (opt_size options) as [[w h|v]|]; unfold raise; try congruence.
  unfold mbind, lift.
  destruct (_create_thumbnail _ _ _ _) as [im|e1]; [|congruence].
  destruct (PIL.save codec im _) as [bytes|e2]; [|congruence].
  unfold storage_save. destruct (save_error E _); congruence.
Qed.

(** C1, as the code has it. When the variants before a failing one were
    generated, [generate_thumbs] raises the failure of that variant to its
    caller and ends there: the storage is the one left by the variants
    before it, the failing variant has stored nothing, and no later
    variant is attempted. *)
Theorem C1_generate_thumbs_stops_at_first_failure :
  forall (self : ImageWithThumbsFieldFile) (name content : string)
         (pre post : list (string * thumb_options)) (t : string * thumb_options)
         (e : exn) (st st1 st2 : files),
    thumbs (field self) = (pre ++ t :: post)%list ->
    generate_thumbs E codec
      (FieldFile (Fields.name self) (Field pre (thumbnail_format (field self))))
      name content st = (Ok tt, st1) ->
    (forall image, PIL.open codec content = Ok image ->
       create_and_store_thumb E codec self image (fst t) (snd t) st1 = (Raise e, st2)) ->
    generate_thumbs E codec self name content st = (Raise e, st1) /\ st2 = st1.
Proof.
  intros self name content pre post [tn topt] e st st1 st2 Hthumbs Hpre Hfail.
  unfold generate_thumbs in *. rewrite Hthumbs. unfold mbind, lift in *.
  destruct (PIL.open codec content) as [image|e0]; [|discriminate].
  specialize (Hfail image eq_refl). simpl in Hfail.
  pose proof (create_and_store_thumb_raise_unchanged _ _ _ _ _ _ _ Hfail) as ->.
  split; [|reflexivity].
  rewrite for_each_app. simpl in Hpre.
  change (for_each _ pre st) with
    (for_each
       (fun thumb : string * thumb_options =>
          let '(thumb_name, thumb_options) := thumb in
          create_and_store_thumb E codec
            (FieldFile (Fields.name self) (Field pre (thumbnail_format (field self))))
            image thumb_name thumb_options) pre st).
  rewrite Hpre. simpl. unfold mbind. rewrite Hfail. reflexivity.
Qed.

End Pipeline.

Import Fixtures.

Lemma C1_witness :
  exists st1 : files,
    generate_thumbs plain_env fake_codec (photo broken_thumbs) "photo.png" "IMG" ∅ =
      (Raise (mk_exn UploadedImageIsUnreadableError "incorrect size specifications $[300, 300]"),
       st1) /\
    storage_exists st1 "a/photo_small.jpeg" = true /\
    storage_exists st1 "a/photo_large.jpeg" = false.
Proof.
  exists (snd (generate_thumbs plain_env fake_codec
                 (FieldFile "a/photo.png" (Field [("small", fit 100 100)] (Some "JPEG")))
                 "photo.png" "IMG" ∅)).
  split.
  - refine (proj1 (C1_generate_thumbs_stops_at_first_failure plain_env fake_codec
             (photo broken_thumbs) "photo.png" "IMG"
             [("small", fit 100 100)] [("large", fit 150 150)]
             ("medium", ThumbOptions (Some (SizeOther (PyStr "[300, 300]"))) None None)
             _ ∅ _ _ eq_refl _ _)).
    + vm_compute. reflexivity.
    + intros image _. reflexivity.
  - split; vm_compute; reflexivity.
Defined.

(** C1, as stated, fails: with a second variant whose size is not a tuple,
    attempting every variant stores the third thumbnail, and
    [generate_thumbs] does not. *)
Lemma C1_counterexample :
  storage_exists
    (snd (Spec.generateThumbnails plain_env fake_codec (photo broken_thumbs) "IMG" ∅))
    "a/photo_large.jpeg" = true /\
  storage_exists
    (snd (generate_thumbs plain_env fake_codec (photo broken_thumbs) "photo.png" "IMG" ∅))
    "a/photo_large.jpeg" = false.
Proof. split; vm_compute; reflexivity. Qed.

(** ** Saving an upload that the codec cannot decode *)

Section Undecodable.
Variable E : env.
Variable codec : PIL.codec.

(** The decode comes before the loop over the variants: when it fails,
    [generate_thumbs] raises the codec's exception and stores nothing. *)
Lemma generate_thumbs_undecodable self name content e st :
  PIL.open codec content = Raise e ->
  generate_thumbs E codec self name content st = (Raise e, st).
Proof.
  intros Hopen. unfold generate_thumbs, mbind, lift. rewrite Hopen. reflexivity.
Qed.

(** The handler of [save] reads [exc.message]. The exception PIL raises
    has no such attribute, so the handler itself raises [AttributeError];
    only the original has been stored. *)
Lemma save_undecodable self name content e st :
  PIL.open codec content = Raise e ->
  is_IOError e = true ->
  assoc "message" (exn_dict e) = None ->
  save_error E (generate_filename E name) = None ->
  save E codec self name content st =
    (Raise (mk_exn AttributeError "object has no attribute 'message'"),
     <[generate_filename E name := content]> st).
Proof.
  intros Hopen Hio Hmsg Hsave.
  unfold save, super_save, mbind at 1, storage_save. rewrite Hsave. simpl.
  unfold try_except, mbind at 1.
  rewrite (generate_thumbs_undecodable _ _ _ _ _ Hopen).
  rewrite Hio. unfold mbind, lift, getattr. rewrite Hmsg. reflexivity.
Qed.

End Undecodable.

(** C2, on the code. Saving bytes that the codec cannot decode stores no
    thumbnail, only the original, but the exception that reaches the
    caller is the [AttributeError] of the handler's [exc.message], not
    [UploadedImageIsUnreadableError]; [generate_thumbs] alone raises the
    codec's [IOError] unclassified. *)
Theorem C2_save_undecodable_raises_AttributeError :
  save plain_env fake_codec (photo two_thumbs) "a/photo.png" "not an image" ∅ =
    (Raise (mk_exn AttributeError "object has no attribute 'message'"),
     {["a/photo.png" := "not an image"]}) /\
  fst (save plain_env fake_codec (photo two_thumbs) "a/photo.png" "not an image" ∅)
    <> Raise unreadable /\
  generate_thumbs plain_env fake_codec (photo two_thumbs) "a/photo.png" "not an image" ∅ =
    (Raise (mk_exn UnidentifiedImageError "cannot identify image file"), ∅).
Proof.
  split; [|split].
  - apply (save_undecodable plain_env fake_codec (photo two_thumbs) "a/photo.png"
             "not an image" (mk_exn UnidentifiedImageError "cannot identify image file") ∅);
      reflexivity.
  - vm_compute. discriminate.
  - apply generate_thumbs_undecodable. reflexivity.
Qed.

(** ** Deleting a file and its thumbnails *)

(** C4, on the code. The backend refuses to delete the first thumbnail:
    [delete] lets the error through, and neither the second thumbnail nor
    the original has been deleted. *)
Theorem C4_delete_lets_storage_error_through :
  delete locked_env (photo two_thumbs) stored_photo =
    (Raise (mk_exn PermissionError "Permission denied"), stored_photo) /\
  storage_exists stored_photo "a/photo_small.jpeg" = true /\
  storage_exists stored_photo "a/photo_large.jpeg" = true /\
  storage_exists stored_photo "a/photo.png" = true.
Proof. repeat split; vm_compute; reflexivity. Qed.

(** Without a failure every thumbnail and the original are deleted. *)
Example delete_without_failure :
  delete plain_env (photo two_thumbs) stored_photo =
    (Ok (FieldFile "" (Field two_thumbs (Some "JPEG"))), ∅).
Proof. vm_compute. reflexivity. Qed.

(** ** The URL cache *)

Lemma str_truthy_Some (s : string) : str_truthy (Some s) = negb (String.eqb s "").
Proof. reflexivity. Qed.

Lemma app_nonempty_l (a b : string) : a <> "" -> a ++ b <> "".
Proof. destruct a; [congruence | discriminate]. Qed.

Lemma app_nonempty_r (a b : string) : b <> "" -> a ++ b <> "".
Proof. destruct a; [simpl; tauto | discriminate]. Qed.

Lemma replace_nonempty (old new s : string) :
  new <> "" -> s <> "" -> replace old new s <> "".
Proof.
  intros Hnew Hs. unfold replace. destruct s as [|c r]; [congruence|].
  simpl String.length. cbn [replace_fuel].
  destruct (strip_prefix old (String c r)).
  - apply app_nonempty_l, Hnew.
  - discriminate.
Qed.

Lemma strip_nonempty (c : ascii) (r : string) :
  isspace c = false -> strip (String c r) <> "".
Proof.
  intros Hc. unfold strip. simpl lstrip. rewrite Hc. simpl rstrip.
  destruct (rstrip r); [rewrite Hc|]; discriminate.
Qed.

Section UrlCache.
Variable E : env.

(** With the cache consulted, a second call with the same arguments
    returns the string of the first from the cache, leaves the cache as
    it is, and asks the storage backend for the URL exactly once. *)
Lemma generate_url_twice (self : ImageWithThumbsFieldFile) (thumb_name : string)
    (ssl_mode cache_bust : bool) (st st1 : url_state) (u : string) :
  generate_url E self thumb_name ssl_mode true cache_bust st = (Ok u, st1) ->
  generate_url E self thumb_name ssl_mode true cache_bust st1 =
    (Ok u, UrlState (cache st1) (S (url_calls st1))).
Proof.
  unfold generate_url, mbind, url, cache_get, cache_set, ret.
  destruct (truthy (PyStr (name self))) eqn:Hname; [|discriminate].
  cbv beta iota. cbn [cache url_calls].
  set (key := strip ("Thumbcache_" ++ storage_url E (name self) ++ "_" ++ thumb_name ++
                      (if ssl_mode then "_ssl" else ""))).
  assert (Hkey : str_truthy (Some key) = true).
  { rewrite str_truthy_Some. destruct (String.eqb_spec key ""); [|reflexivity].
    exfalso. revert e. apply strip_nonempty. reflexivity. }
  rewrite Hkey. cbv beta iota. cbn [cache url_calls].
  match goal with
  | |- context [UrlState (<[key := ?new_url]> _) _] => set (new := new_url)
  end.
  assert (Hnew : str_truthy (Some new) = true).
  { rewrite str_truthy_Some. destruct (String.eqb_spec new ""); [|reflexivity].
    exfalso. revert e. subst new.
    assert (Hbase : forall a b, a ++ "/" ++ b <> "")
      by (intros a b; apply app_nonempty_r; discriminate).
    destruct ssl_mode; [apply replace_nonempty; [discriminate|]|];
      (destruct (cache_bust && truthy (PyStr (MEDIA_CACHE_BUSTER E)))%bool;
       [apply app_nonempty_l, Hbase | apply Hbase]). }
  destruct (cache st !! key) as [v|] eqn:Hget.
  - destruct (str_truthy (Some v)) eqn:Hv.
    + intros [= <- <-]. cbn [cache url_calls]. rewrite Hget, Hv. reflexivity.
    + intros [= <- <-]. cbn [cache url_calls].
      rewrite lookup_insert_eq, Hnew. reflexivity.
  - try change (str_truthy None) with false. cbv iota.
    intros [= <- <-]. cbn [cache url_calls].
    rewrite lookup_insert_eq, Hnew. reflexivity.
Qed.

(** X20. A call that does not consult the cache computes the string that a
    call on an empty cache returns, asks the backend once, and neither
    reads nor writes the cache. *)
Lemma generate_url_cold_warm (self : ImageWithThumbsFieldFile) (thumb_name : string)
    (ssl_mode cache_bust : bool) (calls calls' : nat) (warm : gmap string string) :
  forall u st1,
    generate_url E self thumb_name ssl_mode true cache_bust (UrlState ∅ calls) = (Ok u, st1) ->
    generate_url E self thumb_name ssl_mode false cache_bust (UrlState warm calls') =
      (Ok u, UrlState warm (S calls')).
Proof.
  intros u st1.
  unfold generate_url, mbind, url, cache_get, cache_set, ret.
  destruct (truthy (PyStr (name self))) eqn:Hname; [|discriminate].
  cbv beta iota. cbn [cache url_calls]. rewrite lookup_empty.
  try change (str_truthy None) with false. cbv iota.
  destruct (str_truthy (Some _)); intros [= <- _]; reflexivity.
Qed.

End UrlCache.

(** C9, on the code. The second of two identical calls is served from
    the cache and returns the same string, yet it has asked the storage
    backend for the URL once more: [self.url] is evaluated to build the
    cache key. *)
Theorem C9_cache_hit_calls_url_resolver_once :
  let first := generate_url plain_env (photo two_thumbs) "small" false true true
                 (UrlState ∅ 0) in
  let second := generate_url plain_env (photo two_thumbs) "small" false true true
                  (snd first) in
  fst first = Ok "http://media.test/a/photo_small.jpeg" /\
  fst second = fst first /\
  cache (snd second) = cache (snd first) /\
  url_calls (snd first) = 2%nat /\
  url_calls (snd second) = 3%nat.
Proof. repeat split; vm_compute; reflexivity. Qed.

(** ** Cropping in the pipeline *)

(** The directive [center] stands for 50% on both axes. *)
Lemma parse_crop_center (xy_image : spec_float * spec_float) (xy_window : Z * Z) :
  Utils.parse_crop "center" xy_image xy_window =
  (do wx <~ float_of_int (fst xy_window);
   do offset_x <~ Utils.get_cropping_offset "50%" (fsub (fst xy_image) wx);
   do wy <~ float_of_int (snd xy_window);
   do offset_y <~ Utils.get_cropping_offset "50%" (fsub (snd xy_image) wy);
   Ok (offset_x, offset_y)).
Proof. reflexivity. Qed.

(** C3, as the code has it. For a thumbnail whose [crop] option is true
    in the Python sense, whatever directive it carries, the pipeline
    scales to cover the window, computes the offsets of the fixed
    directive [center] on the scaled image and stores the encoding of the
    scaled image cropped to [x, y, x + width, y + height]. *)
Theorem C3_crop_uses_center_offsets :
  forall (E : env) (codec : PIL.codec) (self : ImageWithThumbsFieldFile)
         (image scaled : PIL.image) (thumb_name : string) (options : thumb_options)
         (width height x y : Z) (st : files),
    opt_size options = Some (SizeTuple width height) ->
    truthy (get_default (opt_crop options) PyNone) = true ->
    Utils.scale (Utils.convert_colorspace image "RGB") (width, height) (Some "center")
      (truthy (get_default (opt_upscale options) (PyBool true))) = Ok scaled ->
    (do xy_image <~ Utils.float_size scaled;
     Utils.parse_crop "center" xy_image (width, height)) = Ok (x, y) ->
    create_and_store_thumb E codec self image thumb_name options st =
      (run content <~ lift (PIL.save codec (PIL.crop scaled x y (x + width) (y + height))
                              (get_thumbnail_format self));
       storage_save E (_calc_thumb_filename self thumb_name) content) st.
Proof.
  intros E codec self image scaled thumb_name options width height x y st
         Hsize Hcrop Hscale Hoffsets.
  unfold create_and_store_thumb. rewrite Hsize, Hcrop.
  unfold _create_thumbnail. rewrite Hscale. simpl Py.bind.
  unfold Utils.crop. simpl Utils.option_truthy. cbv iota.
  unfold Py.bind in Hoffsets |- *.
  destruct (Utils.float_size scaled) as [[x_image y_image]|e0]; [|discriminate].
  rewrite Hoffsets. simpl fst. simpl snd.
  rewrite (Z.add_comm width x), (Z.add_comm height y). reflexivity.
Qed.

Lemma C3_witness :
  create_and_store_thumb plain_env fake_codec (photo two_thumbs) (small_image 200 400)
    "large" (cover 50 50 (PyStr "top")) ∅ =
  (Ok tt, {["a/photo_large.jpeg" :=
            "jpeg 50x50 crop(0,25,50,75) resize(50,100) convert(RGB)"]}).
Proof.
  rewrite (C3_crop_uses_center_offsets plain_env fake_codec (photo two_thumbs)
             (small_image 200 400)
             (PIL.Image (50, 100) "RGB" false [PIL.Resize 50 100; PIL.Convert "RGB"])
             "large" (cover 50 50 (PyStr "top")) 50 50 0 25 ∅).
  - vm_compute. reflexivity.
  - reflexivity.
  - reflexivity.
  - vm_compute. reflexivity.
  - vm_compute. reflexivity.
Defined.

(** C3, as stated, fails. For the directive [top] on a 200x400 original
    and a 50x50 window, the offsets of the directive on the scaled image
    are (0, 0), and the stored thumbnail was cropped to [0, 25, 50, 75]. *)
Lemma C3_counterexample :
  (do scaled <~ Utils.scale (Utils.convert_colorspace (small_image 200 400) "RGB")
                  (50, 50) (Some "top") true;
   do xy_image <~ Utils.float_size scaled;
   Utils.parse_crop "top" xy_image (50, 50)) = Ok (0, 0) /\
  snd (generate_thumbs plain_env fake_codec
         (FieldFile "a/photo.png" (Field [("large", cover 50 50 (PyStr "top"))] (Some "JPEG")))
         "a/photo.png" "IMG" ∅) !! "a/photo_large.jpeg" =
    Some "jpeg 50x50 crop(0,25,50,75) resize(50,100) convert(RGB)".
Proof. split; vm_compute; reflexivity. Qed.

(** ** Comparison and rounding of numbers *)

Lemma fin_compare_antisym (m1 e1 m2 e2 : Z) :
  fin_compare m2 e2 m1 e1 = CompOpp (fin_compare m1 e1 m2 e2).
Proof.
  unfold fin_compare. rewrite (Z.min_comm e2 e1). apply Z.compare_antisym.
Qed.

Lemma fin_compare_refl (m e : Z) : fin_compare m e m e = Eq.
Proof. unfold fin_compare. apply Z.compare_refl. Qed.

Lemma num_compare_antisym (a b : num) :
  num_compare b a = option_map CompOpp (num_compare a b).
Proof.
  unfold num_compare.
  destruct (xreal_of_num a) as [|[]|m1 e1], (xreal_of_num b) as [|[]|m2 e2];
    simpl; try reflexivity.
  f_equal. apply fin_compare_antisym.
Qed.

Lemma num_lt_irrefl (a : num) : num_lt a a = false.
Proof.
  unfold num_lt, num_compare.
  destruct (xreal_of_num a) as [|[]|m e]; try reflexivity.
  rewrite fin_compare_refl. reflexivity.
Qed.

Lemma num_gt_irrefl (a : num) : num_gt a a = false.
Proof.
  unfold num_gt, num_compare.
  destruct (xreal_of_num a) as [|[]|m e]; try reflexivity.
  rewrite fin_compare_refl. reflexivity.
Qed.

Lemma num_gt_lt (a b : num) : num_gt b a = num_lt a b.
Proof.
  unfold num_gt, num_lt. rewrite (num_compare_antisym a b).
  destruct (num_compare a b) as [[]|]; reflexivity.
Qed.

Lemma num_gt_not_lt (a b : num) : num_gt b a = true -> num_lt b a = false.
Proof.
  unfold num_gt, num_lt. destruct (num_compare b a) as [[]|]; congruence.
Qed.

(** [max] of two floats is one of them and neither is above it; [min]
    is one of them and neither is below it. *)
Lemma float_max_spec (a b : spec_float) :
  (float_max a b = a \/ float_max a b = b) /\
  num_lt (NFloat (float_max a b)) (NFloat a) = false /\
  num_lt (NFloat (float_max a b)) (NFloat b) = false.
Proof.
  unfold float_max. destruct (num_gt (NFloat b) (NFloat a)) eqn:Hgt.
  - split; [tauto|]. split; [apply num_gt_not_lt, Hgt | apply num_lt_irrefl].
  - split; [tauto|]. split; [apply num_lt_irrefl|]. rewrite <- num_gt_lt. exact Hgt.
Qed.

Lemma float_min_spec (a b : spec_float) :
  (float_min a b = a \/ float_min a b = b) /\
  num_gt (NFloat (float_min a b)) (NFloat a) = false /\
  num_gt (NFloat (float_min a b)) (NFloat b) = false.
Proof.
  unfold float_min. destruct (num_lt (NFloat b) (NFloat a)) eqn:Hlt.
  - split; [tauto|]. split; [|apply num_gt_irrefl].
    rewrite num_gt_lt. rewrite <- num_gt_lt in Hlt. apply num_gt_not_lt, Hlt.
  - split; [tauto|]. split; [apply num_gt_irrefl|]. rewrite num_gt_lt. exact Hlt.
Qed.

Lemma rne_div_nearest (m d : Z) :
  0 < d ->
  2 * Z.abs (rne_div m d * d - m) <= d /\
  (2 * Z.abs (rne_div m d * d - m) = d -> Z.even (rne_div m d) = true).
Proof.
  intros Hd. unfold rne_div.
  pose proof (Z.div_mod m d ltac:(lia)) as Hdm.
  pose proof (Z.mod_pos_bound m d Hd) as Hr.
  set (q := m / d) in *. set (r := m mod d) in *.
  destruct (Z.compare_spec (2 * r) d) as [Heq|Hlt|Hgt].
  - destruct (Z.even q) eqn:Hev.
    + split; [|intros _; exact Hev].
      replace (q * d - m) with (- r) by lia. lia.
    + split.
      * replace ((q + 1) * d - m) with (d - r) by lia. lia.
      * intros _. rewrite Z.even_add, Hev. reflexivity.
  - replace (q * d - m) with (- r) by lia. split; lia.
  - replace ((q + 1) * d - m) with (d - r) by lia. split; lia.
Qed.

Lemma round_to_int_nearest_even (f : spec_float) (m e : Z) :
  xreal_of_float f = XFin m e ->
  exists r, Utils.round_to_int (NFloat f) = Ok r /\ nearest_even m e r.
Proof.
  intros Hf. unfold Utils.round_to_int, py_int_round0. simpl. rewrite Hf.
  eexists; split; [reflexivity|].
  unfold nearest_even. destruct (0 <=? e) eqn:He; [reflexivity|].
  apply rne_div_nearest. apply Z.pow_pos_nonneg; lia.
Qed.

(** ** Scaling *)

(** The outcome of [image.resize]: a size of at least 1x1 is honoured,
    a size other than the image's own with a width or height below 1 is
    refused. *)
Lemma resize_outcome (image : PIL.image) (width height : Z) :
  (1 <= width -> 1 <= height ->
   PIL.resize image (width, height) =
     Ok (PIL.Image (width, height) (PIL.mode image) (PIL.has_transparency image)
           (PIL.Resize width height :: PIL.history image))) /\
  (PIL.size image <> (width, height) -> width < 1 \/ height < 1 ->
   PIL.resize image (width, height) =
     Raise (mk_exn ValueError "height and width must be > 0")).
Proof.
  unfold PIL.resize. cbn [fst snd]. split.
  - intros Hw Hh.
    destruct (Z.ltb_spec width 1); [lia|]. destruct (Z.ltb_spec height 1); [lia|].
    destruct (_ && _)%bool; reflexivity.
  - intros Hsize Hsmall.
    destruct (Z.eqb_spec (fst (PIL.size image)) width) as [Hx|Hx];
      [destruct (Z.eqb_spec (snd (PIL.size image)) height) as [Hy|Hy]|].
    + exfalso. apply Hsize. destruct (PIL.size image). simpl in *. congruence.
    + simpl andb. cbv iota.
      destruct (Z.ltb_spec width 1); [reflexivity|].
      destruct (Z.ltb_spec height 1); [reflexivity | lia].
    + simpl andb. cbv iota.
      destruct (Z.ltb_spec width 1); [reflexivity|].
      destruct (Z.ltb_spec height 1); [reflexivity | lia].
Qed.

(** A resized image keeps its mode and has the size asked for. *)
Lemma resize_Ok (image im : PIL.image) (wh : Z * Z) :
  PIL.resize image wh = Ok im ->
  PIL.mode im = PIL.mode image /\ PIL.size im = wh.
Proof.
  unfold PIL.resize. destruct (_ && _)%bool; [intros [= <-]; split; reflexivity|].
  destruct (_ || _)%bool; [discriminate | intros [= <-]; split; reflexivity].
Qed.

(** C6, as the code has it. [scale] takes the larger of the two per-axis
    factors when cropping is requested and the smaller otherwise. When
    that factor is at least 1 and upscaling is off, the image is returned
    as it is. Otherwise [scale] is the outcome of resizing the image to
    its two dimensions multiplied by the factor, each rounded to the
    nearest integer, a tie going to the even one: the resized image when
    both rounded dimensions are at least 1, and the [ValueError] of
    [resize] when one of them is below 1 and the size is not the image's
    own. *)
Theorem C6_scale_factor_and_rounding :
  forall (image : PIL.image) (target_size : Z * Z) (crop_option : option string)
         (upscale : bool) (x_image y_image fx fy : spec_float),
    Utils.float_size image = Ok (x_image, y_image) ->
    Utils.scale_factors x_image y_image target_size = Ok (fx, fy) ->
    let factor := Utils.scale_factor (fx, fy) crop_option in
    (factor = fx \/ factor = fy) /\
    (Utils.option_truthy crop_option = true ->
       num_lt (NFloat factor) (NFloat fx) = false /\
       num_lt (NFloat factor) (NFloat fy) = false) /\
    (Utils.option_truthy crop_option = false ->
       num_gt (NFloat factor) (NFloat fx) = false /\
       num_gt (NFloat factor) (NFloat fy) = false) /\
    (num_ge (NFloat factor) (NInt 1) = true -> upscale = false ->
       Utils.scale image target_size crop_option upscale = Ok image) /\
    (num_lt (NFloat factor) (NInt 1) = true \/ upscale = true ->
       forall mw ew mh eh,
         xreal_of_float (fmul x_image factor) = XFin mw ew ->
         xreal_of_float (fmul y_image factor) = XFin mh eh ->
         exists width height,
           Utils.scale image target_size crop_option upscale =
             PIL.resize image (width, height) /\
           nearest_even mw ew width /\ nearest_even mh eh height /\
           (1 <= width -> 1 <= height ->
            Utils.scale image target_size crop_option upscale =
              Ok (PIL.Image (width, height) (PIL.mode image) (PIL.has_transparency image)
                    (PIL.Resize width height :: PIL.history image))) /\
           (PIL.size image <> (width, height) -> width < 1 \/ height < 1 ->
            Utils.scale image target_size crop_option upscale =
              Raise (mk_exn ValueError "height and width must be > 0"))).
Proof.
  intros image target_size crop_option upscale x_image y_image fx fy Hsize Hfactors factor.
  pose proof (float_max_spec fx fy) as (Hmax1 & Hmax2 & Hmax3).
  pose proof (float_min_spec fx fy) as (Hmin1 & Hmin2 & Hmin3).
  assert (Hscale : Utils.scale image target_size crop_option upscale =
            if (num_lt (NFloat factor) (NInt 1) || upscale)%bool then
              do width <~ Utils.round_to_int (NFloat (fmul x_image factor));
              do height <~ Utils.round_to_int (NFloat (fmul y_image factor));
              PIL.resize image (width, height)
            else Ok image).
  { unfold Utils.scale. rewrite Hsize. simpl Py.bind. rewrite Hfactors. reflexivity. }
  subst factor. unfold Utils.scale_factor in *. simpl fst in *. simpl snd in *.
  repeat split.
  - destruct (Utils.option_truthy crop_option); assumption.
  - destruct (Utils.option_truthy crop_option); [assumption | discriminate].
  - destruct (Utils.option_truthy crop_option); [assumption | discriminate].
  - destruct (Utils.option_truthy crop_option); [discriminate | assumption].
  - destruct (Utils.option_truthy crop_option); [discriminate | assumption].
  - intros Hge ->. rewrite Hscale.
    unfold num_ge in Hge. unfold num_lt.
    destruct (num_compare _ (NInt 1)) as [[]|]; try discriminate; reflexivity.
  - intros Hresize mw ew mh eh Hw Hh. rewrite Hscale.
    replace (num_lt _ (NInt 1) || upscale)%bool with true
      by (destruct Hresize as [-> | ->]; [reflexivity | symmetry; apply orb_true_r]).
    destruct (round_to_int_nearest_even _ _ _ Hw) as (width & -> & Hwidth).
    destruct (round_to_int_nearest_even _ _ _ Hh) as (height & -> & Hheight).
    exists width, height. cbv beta iota delta [Py.bind].
    destruct (resize_outcome image width height) as [Hok Hrefused]. auto.
Qed.

Lemma C6_witness :
  Utils.scale (small_image 5 4) (100, 2) None false =
    Ok (PIL.Image (2, 2) "RGB" false [PIL.Resize 2 2]) /\
  Utils.scale (small_image 200 400) (300, 500) None false = Ok (small_image 200 400) /\
  Utils.scale (small_image 1000 1) (10, 10) None false =
    Raise (mk_exn ValueError "height and width must be > 0").
Proof.
  split; [|split].
  - destruct (C6_scale_factor_and_rounding (small_image 5 4) (100, 2) None false
                (S754_finite false 5629499534213120 (-50))
                (S754_finite false 4503599627370496 (-50))
                (S754_finite false 5629499534213120 (-48))
                (S754_finite false 4503599627370496 (-53))
                ltac:(vm_compute; reflexivity) ltac:(vm_compute; reflexivity))
      as (_ & _ & _ & _ & Hresize).
    destruct (Hresize (or_introl eq_refl) 5629499534213120 (-51) 4503599627370496 (-51)
                ltac:(vm_compute; reflexivity) ltac:(vm_compute; reflexivity))
      as (width & height & _ & Hw & Hh & Hok & _).
    unfold nearest_even in Hw, Hh. simpl in Hw, Hh.
    change (2 ^ (- (-51))) with 2251799813685248 in Hw, Hh.
    destruct Hw as [Hw Heven], Hh as [Hh _].
    assert (height = 2) as -> by lia.
    assert (width = 2 \/ width = 3) as [-> | ->] by lia;
      [apply Hok; lia|].
    discriminate Heven. reflexivity.
  - destruct (C6_scale_factor_and_rounding (small_image 200 400) (300, 500) None false
                (S754_finite false 7036874417766400 (-45))
                (S754_finite false 7036874417766400 (-44))
                (S754_finite false 6755399441055744 (-52))
                (S754_finite false 5629499534213120 (-52))
                ltac:(vm_compute; reflexivity) ltac:(vm_compute; reflexivity))
      as (_ & _ & _ & Hsame & _).
    apply Hsame; reflexivity.
  - destruct (C6_scale_factor_and_rounding (small_image 1000 1) (10, 10) None false
                (S754_finite false 8796093022208000 (-43))
                (S754_finite false 4503599627370496 (-52))
                (S754_finite false 5764607523034235 (-59))
                (S754_finite false 5629499534213120 (-49))
                ltac:(vm_compute; reflexivity) ltac:(vm_compute; reflexivity))
      as (_ & _ & _ & _ & Hresize).
    destruct (Hresize (or_introl eq_refl) 5629499534213120 (-49) 5764607523034235 (-59)
                ltac:(vm_compute; reflexivity) ltac:(vm_compute; reflexivity))
      as (width & height & _ & Hw & Hh & _ & Hrefused).
    unfold nearest_even in Hh. simpl in Hh.
    change (2 ^ (- (-59))) with 576460752303423488 in Hh.
    destruct Hh as [Hh _].
    assert (height = 0) as -> by lia.
    apply Hrefused; [|lia].
    simpl. congruence.
Defined.

(** C6, as stated, fails. A 5x4 image scaled to fit 100x2 has the factor
    0.5 and the width 2.5 before rounding: away from zero that is 3, the
    code resizes to the width 2. *)
Lemma C6_counterexample :
  let x_image := S754_finite false 5629499534213120 (-50) in
  let factor := S754_finite false 4503599627370496 (-53) in
  Utils.float_size (small_image 5 4) = Ok (x_image, S754_finite false 4503599627370496 (-50)) /\
  (do factors <~ Utils.scale_factors x_image (S754_finite false 4503599627370496 (-50)) (100, 2);
   Ok (Utils.scale_factor factors None)) = Ok factor /\
  num_lt (NFloat factor) (NInt 1) = true /\
  xreal_of_float (fmul x_image factor) = XFin (5 * 2 ^ 50) (-1 - 50) /\
  Spec.round_half_away (fmul x_image factor) = Some 3 /\
  Utils.scale (small_image 5 4) (100, 2) None false =
    Ok (PIL.Image (2, 2) "RGB" false [PIL.Resize 2 2]).
Proof. repeat split; vm_compute; reflexivity. Qed.

(** ** Binary64 arithmetic that does not round *)

Lemma digits2_pos_log2 (p : positive) :
  Zpos (digits2_pos p) = Z.log2 (Zpos p) + 1.
Proof.
  assert (H : forall q, digits2_pos q = Pos.size q).
  { induction q; simpl; congruence. }
  rewrite H. destruct p; simpl; rewrite ?Pos2Z.inj_succ; lia.
Qed.

Lemma Zdigits2_log2 (z : Z) : 0 < z -> Zdigits2 z = Z.log2 z + 1.
Proof. destruct z; try lia. intros _. apply digits2_pos_log2. Qed.

Lemma iter_pos_nat {A} (f : A -> A) (p : positive) (x : A) :
  SpecFloat.iter_pos f p x = Nat.iter (Pos.to_nat p) f x.
Proof.
  revert x. induction p as [p IH|p IH|]; intros x; cbn [SpecFloat.iter_pos].
  - rewrite !IH. rewrite Pos2Nat.inj_xI.
    replace (S (2 * Pos.to_nat p))%nat with (Pos.to_nat p + (Pos.to_nat p + 1))%nat by lia.
    rewrite !Nat.iter_add. reflexivity.
  - rewrite !IH. rewrite Pos2Nat.inj_xO.
    replace (2 * Pos.to_nat p)%nat with (Pos.to_nat p + Pos.to_nat p)%nat by lia.
    rewrite Nat.iter_add. reflexivity.
  - reflexivity.
Qed.

Lemma shr_1_double (k : Z) :
  0 <= k -> shr_1 (Build_shr_record (2 * k) false false) = Build_shr_record k false false.
Proof. destruct k; try lia; reflexivity. Qed.

Lemma shr_iter_exact (n : nat) (k : Z) :
  0 <= k ->
  Nat.iter n shr_1 (Build_shr_record (k * 2 ^ Z.of_nat n) false false) =
  Build_shr_record k false false.
Proof.
  intros Hk. induction n as [|n IH].
  - simpl. f_equal. lia.
  - rewrite Nat.iter_succ_r.
    replace (k * 2 ^ Z.of_nat (S n)) with (2 * (k * 2 ^ Z.of_nat n))
      by (rewrite Nat2Z.inj_succ, Z.pow_succ_r; lia).
    rewrite shr_1_double by (apply Z.mul_nonneg_nonneg; [lia | apply Z.pow_nonneg; lia]).
    exact IH.
Qed.

Lemma shr_exact (k e n : Z) :
  0 <= k -> 0 <= n ->
  shr (Build_shr_record (k * 2 ^ n) false false) e n =
  (Build_shr_record k false false, e + n).
Proof.
  intros Hk Hn. unfold shr. destruct n as [|p|p]; try lia.
  - simpl. rewrite Z.mul_1_r, Z.add_0_r. reflexivity.
  - rewrite iter_pos_nat. rewrite <- (positive_nat_Z p) at 1.
    rewrite shr_iter_exact by exact Hk. reflexivity.
Qed.

(** Rounding a mantissa whose discarded bits are all zero is exact. *)
Lemma binary_round_aux_exact (sx : bool) (m0 : positive) (n ex : Z) :
  0 <= n ->
  Z.max 0 (fexp prec emax (Z.log2 (Zpos m0) + 1 + n + ex) - ex) = n ->
  ex + n <= emax - prec ->
  binary_round_aux prec emax sx (Zpos m0 * 2 ^ n) ex loc_Exact =
  S754_finite sx m0 (ex + n).
Proof.
  intros Hn Hmax Hle.
  assert (Hpos : 0 < Zpos m0 * 2 ^ n) by (apply Z.mul_pos_pos; [lia | apply Z.pow_pos_nonneg; lia]).
  assert (Hdig : Zdigits2 (Zpos m0 * 2 ^ n) = Z.log2 (Zpos m0) + 1 + n).
  { rewrite Zdigits2_log2 by exact Hpos. rewrite Z.log2_mul_pow2 by lia. lia. }
  unfold binary_round_aux, shr_fexp. rewrite Hdig.
  set (F := fexp prec emax (Z.log2 (Zpos m0) + 1 + n + ex)) in *.
  simpl shr_record_of_loc.
  assert (Hfirst : shr (Build_shr_record (Zpos m0 * 2 ^ n) false false) ex (F - ex) =
                   (Build_shr_record (Zpos m0) false false, ex + n)).
  { destruct (Z.max_spec 0 (F - ex)) as [[Hlt Heq]|[Hge Heq]].
    - rewrite Heq in Hmax. rewrite Hmax. apply shr_exact; lia.
    - rewrite Heq in Hmax. subst n. rewrite Z.pow_0_r, Z.mul_1_r, Z.add_0_r.
      unfold shr. destruct (F - ex); try lia; reflexivity. }
  rewrite Hfirst. simpl loc_of_shr_record. simpl round_nearest_even.
  assert (Hdig2 : Zdigits2 (Zpos m0) + (ex + n) = Z.log2 (Zpos m0) + 1 + n + ex).
  { rewrite Zdigits2_log2 by lia. lia. }
  rewrite Hdig2. fold F.
  assert (Hsecond : shr (Build_shr_record (Zpos m0) false false) (ex + n) (F - (ex + n)) =
                    (Build_shr_record (Zpos m0) false false, ex + n)).
  { unfold shr. destruct (F - (ex + n)) eqn:Hd; try reflexivity. lia. }
  rewrite Hsecond. simpl shr_m.
  destruct (Z.leb_spec (ex + n) (emax - prec)); [reflexivity | lia].
Qed.

Lemma pos_iter_xO (p k : positive) :
  Zpos (Pos.iter xO p k) = Zpos p * 2 ^ Zpos k.
Proof.
  induction k as [|k IH] using Pos.peano_ind.
  - simpl. lia.
  - rewrite Pos.iter_succ, Pos2Z.inj_xO, IH, Pos2Z.inj_succ, Z.pow_succ_r by lia. lia.
Qed.

(** The digits of a number below 2^53. *)
Lemma log2_range (z : Z) : 0 < z -> z < 2 ^ 53 -> 0 <= Z.log2 z <= 52.
Proof.
  intros Hz Hlt. split; [apply Z.log2_nonneg|].
  assert (Z.log2 z < 53) by (apply Z.log2_lt_pow2; lia). lia.
Qed.

Lemma normalized_pos (z : Z) :
  0 < z -> z < 2 ^ 53 -> 0 < z * 2 ^ (prec - (Z.log2 z + 1)).
Proof.
  intros Hz Hlt. pose proof (log2_range z Hz Hlt). unfold prec.
  apply Z.mul_pos_pos; [lia | apply Z.pow_pos_nonneg; lia].
Qed.

Lemma normalized_log2 (z : Z) :
  0 < z -> z < 2 ^ 53 -> Z.log2 (z * 2 ^ (prec - (Z.log2 z + 1))) = 52.
Proof.
  intros Hz Hlt. pose proof (log2_range z Hz Hlt). unfold prec.
  rewrite Z.log2_mul_pow2 by lia. lia.
Qed.

(** Small integers, and their products and quotients when these fit in
    53 bits, are floats: the arithmetic on them does not round. *)
Lemma float_of_int_exact (z : Z) :
  0 < z -> z < 2 ^ 53 -> float_of_int z = Ok (float_pow2 z 0).
Proof.
  intros Hz Hlt. pose proof (log2_range z Hz Hlt) as Hd.
  pose proof (normalized_pos z Hz Hlt) as Hpos.
  pose proof (normalized_log2 z Hz Hlt) as Hlog.
  unfold float_of_int, binary_normalize.
  destruct z as [|p|p]; try lia.
  unfold binary_round.
  rewrite digits2_pos_log2.
  set (d := Z.log2 (Zpos p) + 1) in *.
  assert (Hfexp : fexp prec emax (d + 0) = d - 53).
  { unfold fexp, emin, prec, emax. lia. }
  rewrite Hfexp.
  assert (Hal : exists mz, shl_align p 0 (d - 53) = (mz, d - 53) /\
                           Zpos mz = Zpos p * 2 ^ (prec - d)).
  { unfold shl_align, prec. destruct (d - 53 - 0) as [|q|q] eqn:Hq; try lia.
    - exists p. replace (d - 53) with 0 by lia. replace (53 - d) with 0 by lia. split; [reflexivity | lia].
    - exists (Pos.iter xO p q). split; [reflexivity|].
      rewrite pos_iter_xO. f_equal. f_equal. lia. }
  destruct Hal as (mz & -> & Hmz).
  replace (Zpos mz) with (Zpos mz * 2 ^ 0) by lia.
  rewrite binary_round_aux_exact.
  - unfold float_pow2. fold d. rewrite <- Hmz. simpl Z.to_pos.
    replace (d - 53 + 0) with (d - prec + 0) by (unfold prec; lia). reflexivity.
  - lia.
  - rewrite Hmz, Hlog. unfold fexp, emin, prec, emax. lia.
  - unfold prec, emax. lia.
Qed.






(** Comparison at a common scale. *)
Lemma fin_compare_scaled (m1 e1 m2 e2 K : Z) :
  0 <= e1 + K -> 0 <= e2 + K ->
  fin_compare m1 e1 m2 e2 = Z.compare (m1 * 2 ^ (e1 + K)) (m2 * 2 ^ (e2 + K)).
Proof.
  intros H1 H2. unfold fin_compare.
  set (mu := Z.min e1 e2).
  replace (e1 + K) with ((e1 - mu) + (mu + K)) by lia.
  replace (e2 + K) with ((e2 - mu) + (mu + K)) by lia.
  rewrite (Z.pow_add_r 2 (e1 - mu) (mu + K)), (Z.pow_add_r 2 (e2 - mu) (mu + K))
    by (unfold mu; lia).
  rewrite !Z.mul_assoc.
  apply Zmult_compare_compat_r. apply Z.lt_gt, Z.pow_pos_nonneg; unfold mu; lia.
Qed.




Lemma read_digits_nonneg (s : string) (acc : Z) (count : nat) :
  0 <= acc -> 0 <= fst (fst (Utils.read_digits acc count s)).
Proof.
  revert acc count. induction s as [|c r IH]; intros acc count Hacc; simpl; [exact Hacc|].
  destruct (Utils.is_digit c); [|exact Hacc].
  apply IH. lia.
Qed.

Lemma match_crop_pattern_nonneg (token : string) (value : Z) (unit : Utils.crop_unit) :
  Utils.match_crop_pattern token = Some (value, unit) -> 0 <= value.
Proof.
  unfold Utils.match_crop_pattern.
  pose proof (read_digits_nonneg token 0 O ltac:(lia)) as Hnn.
  destruct (Utils.read_digits 0 0 token) as [[v count] rest]. simpl in Hnn.
  destruct count; [discriminate|].
  destruct (Utils.read_unit rest); [|discriminate].
  intros [= <- _]. exact Hnn.
Qed.

Lemma float_of_int_small (z : Z) :
  0 <= z -> z < 2 ^ 53 -> exists f, float_of_int z = Ok f.
Proof.
  intros Hz Hlt. destruct (Z.eq_dec z 0) as [->|Hne].
  - eexists. reflexivity.
  - eexists. apply float_of_int_exact; lia.
Qed.









Import Regen.

(** ** Batch regeneration *)

#[local] Set Warnings "-clear-no-such-hyp".

Lemma storage_exists_dom (st : files) (name : string) :
  storage_exists st name = true <-> name ∈ dom st.
Proof.
  unfold storage_exists. rewrite bool_decide_eq_true, elem_of_dom. reflexivity.
Qed.

Lemma storage_exists_mono (st st' : files) (name : string) :
  dom st ⊆ dom st' -> storage_exists st name = true -> storage_exists st' name = true.
Proof. rewrite !storage_exists_dom. set_solver. Qed.

Lemma all_exist_mono (st st' : files) f :
  dom st ⊆ dom st' -> all_exist st f -> all_exist st' f.
Proof.
  intros Hsub Hall. unfold all_exist in *. eapply Forall_impl; [exact Hall|].
  intros t. apply storage_exists_mono, Hsub.
Qed.

Lemma missing_fold_nil (f : ImageWithThumbsFieldFile) (st : files)
    (l : list (string * thumb_options)) (acc : list string) :
  fold_left
    (fun missing_thumbs thumb =>
       let '(thumb_name, thumb_options) := thumb in
       let thumb_filename := _calc_thumb_filename f thumb_name in
       if negb (storage_exists st thumb_filename)
       then (missing_thumbs ++ [thumb_name])%list
       else missing_thumbs) l acc = [] <->
  acc = [] /\ Forall (fun thumb => storage_exists st (_calc_thumb_filename f (fst thumb)) = true) l.
Proof.
  revert acc. induction l as [|[n o] l IH]; intros acc; simpl.
  - split; [intros ->; split; constructor | tauto].
  - rewrite IH. rewrite Forall_cons. simpl.
    destruct (storage_exists st (_calc_thumb_filename f n)); simpl.
    + tauto.
    + split; [intros [H _]; destruct acc; discriminate | intros (_ & H & _); discriminate].
Qed.

Lemma get_missing_nil (f : ImageWithThumbsFieldFile) (st : files) :
  get_missing_thumbnails f st = [] <-> all_exist st f.
Proof.
  unfold get_missing_thumbnails, all_exist. rewrite missing_fold_nil. tauto.
Qed.

Section Rerun.
Variable E : env.
Variable codec : PIL.codec.

Lemma create_and_store_thumb_dom self image thumb_name options r st st' :
  create_and_store_thumb E codec self image thumb_name options st = (r, st') ->
  dom st ⊆ dom st' /\
  (r = Ok tt -> storage_exists st' (_calc_thumb_filename self thumb_name) = true).
Proof.
  unfold create_and_store_thumb.
  destruct (opt_size options) as [[w h|v]|]; unfold raise;
    try (intros [= <- <-]; split; [reflexivity | discriminate]).
  unfold mbind, lift.
  destruct (_create_thumbnail _ _ _ _) as [im|e1];
    [|intros [= <- <-]; split; [reflexivity | discriminate]].
  destruct (PIL.save codec im _) as [bytes|e2];
    [|intros [= <- <-]; split; [reflexivity | discriminate]].
  unfold storage_save. destruct (save_error E _);
    intros [= <- <-]; (split; [|try discriminate]).
  - reflexivity.
  - rewrite dom_insert. set_solver.
  - intros _. apply storage_exists_dom. rewrite dom_insert. set_solver.
Qed.

Lemma generate_thumbs_dom self name content r st st' :
  generate_thumbs E codec self name content st = (r, st') ->
  dom st ⊆ dom st' /\ (r = Ok tt -> all_exist st' self).
Proof.
  unfold generate_thumbs, mbind at 1, lift, all_exist.
  destruct (PIL.open codec content) as [image|e];
    [|intros [= <- <-]; split; [reflexivity | discriminate]].
  generalize (thumbs (field self)) as l. intros l. revert st.
  induction l as [|[n o] l IH]; intros st; simpl.
  - unfold ret. intros [= <- <-]. split; [reflexivity | constructor].
  - unfold mbind.
    destruct (create_and_store_thumb E codec self image n o st) as [[[]|e] st1] eqn:Hone.
    + destruct (create_and_store_thumb_dom _ _ _ _ _ _ _ Hone) as [Hdom Hex].
      intros Hrest. destruct (IH _ Hrest) as [Hdom' Hall].
      split; [set_solver|]. intros Hok. constructor; [|apply Hall, Hok].
      simpl. apply (storage_exists_mono st1); [exact Hdom' | apply Hex; reflexivity].
    + destruct (create_and_store_thumb_dom _ _ _ _ _ _ _ Hone) as [Hdom _].
      intros [= <- <-]. split; [exact Hdom | discriminate].
Qed.

Variable self : Command.

Lemma step_no_file (x : instance) (s : loop_state) :
  truthy (PyStr (name (file_of x))) = false ->
  regenerate_one E codec self x s =
    (Ok tt, LoopState (storage s) (regen_tracker s) (processed_count s)
              (S (skipped_no_file s)) (skipped_exists s) (error_count s)
              (printed s ++ [SkippedNoFile])).
Proof. intros H. unfold regenerate_one. rewrite H. reflexivity. Qed.

Lemma step_already (x : instance) (s : loop_state) :
  truthy (PyStr (name (file_of x))) = true ->
  basename (name (file_of x)) ∈ regen_tracker s ->
  regenerate_one E codec self x s =
    (Ok tt, LoopState (storage s) (regen_tracker s) (processed_count s)
              (skipped_no_file s) (S (skipped_exists s)) (error_count s)
              (printed s ++ [SkippedAlreadyProcessed])).
Proof.
  intros H Hin. unfold regenerate_one. rewrite H. change (negb true) with false. cbv iota.
  unfold mbind at 1, tracked. rewrite bool_decide_eq_true_2 by exact Hin. reflexivity.
Qed.

Lemma step_exists (x : instance) (s : loop_state) :
  force_regen self = false ->
  truthy (PyStr (name (file_of x))) = true ->
  basename (name (file_of x)) ∉ regen_tracker s ->
  all_exist (storage s) (file_of x) ->
  regenerate_one E codec self x s =
    (Ok tt, LoopState (storage s) ({[basename (name (file_of x))]} ∪ regen_tracker s)
              (processed_count s) (skipped_no_file s) (S (skipped_exists s)) (error_count s)
              (printed s ++ [SkippedExists])).
Proof.
  intros Hforce H Hnin Hall. unfold regenerate_one. rewrite H. change (negb true) with false.
  cbv iota. unfold mbind at 1, tracked. rewrite bool_decide_eq_false_2 by exact Hnin.
  cbv iota. unfold mbind at 1. unfold needs_regeneration. rewrite Hforce.
  apply get_missing_nil in Hall. rewrite Hall. reflexivity.
Qed.

Ltac processing :=
  unfold mbind, try_except, on_storage, storage_read, ret, raise, print, incr_error,
    incr_processed, track;
  cbv beta;
  cbn [storage regen_tracker processed_count skipped_no_file skipped_exists
         error_count printed];
  let c := fresh "content" in
  let Hread := fresh "Hread" in
  destruct (storage _ !! _) as [c|] eqn:Hread; cbn [is_IOError exn_class_of mk_exn];
  [ match goal with
    | |- context [generate_thumbs ?E ?codec ?f ?n ?c ?st] =>
        let e := fresh "e" in
        let st1 := fresh "st1" in
        let Hgen := fresh "Hgen" in
        destruct (generate_thumbs E codec f n c st) as [[[]|e] st1] eqn:Hgen;
        destruct (generate_thumbs_dom _ _ _ _ _ _ Hgen) as [? ?];
        cbn [storage regen_tracker processed_count skipped_no_file skipped_exists
               error_count printed];
        [ intros [= <- <-]; cbn [storage regen_tracker error_count printed];
          repeat split; try reflexivity; try set_solver;
          exists Processed; repeat split; auto
        | destruct (is_IOError e);
          intros [= <- <-]; cbn [storage regen_tracker error_count printed];
          repeat split; try reflexivity; try set_solver; try lia;
          exists ErrorCorrupt; repeat split ]
    end
  | intros [= <- <-]; cbn [storage regen_tracker error_count printed];
    repeat split; try reflexivity; try lia;
    exists ErrorMissingSource; repeat split ].

Lemma step_cases (x : instance) (s s' : loop_state) (r : result unit) :
  regenerate_one E codec self x s = (r, s') ->
  dom (storage s) ⊆ dom (storage s') /\
  regen_tracker s ⊆ regen_tracker s' /\
  (error_count s <= error_count s')%nat /\
  match r with
  | Raise _ => printed s' = printed s
  | Ok _ =>
      exists o, printed s' = (printed s ++ [o])%list /\
        match o with
        | SkippedNoFile =>
            truthy (PyStr (name (file_of x))) = false /\
            regen_tracker s' = regen_tracker s
        | SkippedAlreadyProcessed =>
            truthy (PyStr (name (file_of x))) = true /\
            basename (name (file_of x)) ∈ regen_tracker s /\
            regen_tracker s' = regen_tracker s
        | SkippedExists =>
            truthy (PyStr (name (file_of x))) = true /\
            all_exist (storage s) (file_of x) /\
            regen_tracker s' = {[basename (name (file_of x))]} ∪ regen_tracker s
        | Processed =>
            truthy (PyStr (name (file_of x))) = true /\
            all_exist (storage s') (file_of x) /\
            regen_tracker s' = {[basename (name (file_of x))]} ∪ regen_tracker s
        | ErrorMissingSource | ErrorCorrupt =>
            error_count s' = S (error_count s) /\
            regen_tracker s' = regen_tracker s
        end
  end.
Proof.
  destruct (truthy (PyStr (name (file_of x)))) eqn:Hfile.
  2:{ rewrite step_no_file by exact Hfile. intros [= <- <-]. simpl.
      repeat split; try reflexivity. exists SkippedNoFile. auto. }
  destruct (decide (basename (name (file_of x)) ∈ regen_tracker s)) as [Hin|Hnin].
  { rewrite step_already by assumption. intros [= <- <-]. simpl.
    repeat split; try reflexivity. exists SkippedAlreadyProcessed. auto. }
  unfold regenerate_one. rewrite Hfile. change (negb true) with false. cbv iota.
  unfold mbind at 1, tracked. rewrite bool_decide_eq_false_2 by exact Hnin. cbv iota.
  unfold mbind at 1.
  destruct (negb (needs_regeneration self (file_of x) (storage s))) eqn:Hneeds.
  - destruct (get_missing_thumbnails (file_of x) (storage s)) eqn:Hmissing.
    + intros [= <- <-]. simpl. repeat split; try reflexivity; try set_solver.
      exists SkippedExists. repeat split. apply get_missing_nil, Hmissing.
    + processing.
  - processing.
Qed.


Hypothesis no_force : force_regen self = false.

Lemma step_skip (x : instance) (s2 : loop_state) :
  has_file x = false \/
  basename (name (file_of x)) ∈ regen_tracker s2 \/
  all_exist (storage s2) (file_of x) ->
  exists sb o2,
    regenerate_one E codec self x s2 = (Ok tt, sb) /\ settled_again x s2 sb o2.
Proof.
  intros Hcase. unfold settled_again. destruct (has_file x) eqn:Hfile; unfold has_file in Hfile.
  - destruct (decide (basename (name (file_of x)) ∈ regen_tracker s2)) as [Hin|Hnin].
    + eexists _, SkippedAlreadyProcessed. split; [apply step_already; assumption|].
      simpl. repeat split; auto.
    + eexists _, SkippedExists. split.
      * apply step_exists; try assumption. destruct Hcase as [?|[?|?]]; [discriminate | tauto | assumption].
      * simpl. repeat split; auto; set_solver.
  - eexists _, SkippedNoFile. split; [apply step_no_file; assumption|].
    simpl. repeat split; auto.
Qed.

(** One step of a rerun, for an instance that the first run settled
    without an error. *)
Lemma step_rerun (x : instance) (s1 sa s2 : loop_state) (o1 : outcome) :
  regenerate_one E codec self x s1 = (Ok tt, sa) ->
  printed sa = (printed s1 ++ [o1])%list ->
  o1 <> ErrorMissingSource -> o1 <> ErrorCorrupt ->
  regen_tracker s1 ⊆ regen_tracker s2 ->
  dom (storage sa) ⊆ dom (storage s2) ->
  exists sb o2,
    regenerate_one E codec self x s2 = (Ok tt, sb) /\
    settled_again x s2 sb o2 /\
    regen_tracker sa ⊆ regen_tracker sb /\
    (o1 = SkippedNoFile -> o2 = SkippedNoFile) /\
    (completed o1 = true -> skipped_as_existing o2 = true).
Proof.
  intros H1 Hprinted Hne1 Hne2 Htracker Hdom.
  destruct (step_cases x s1 sa (Ok tt) H1) as (Hdom1 & Htr1 & _ & o & Ho & Hfacts).
  rewrite Hprinted in Ho. apply app_inj_tail in Ho as [_ <-].
  assert (Hpre : (has_file x = false /\ regen_tracker sa = regen_tracker s1) \/
                 (has_file x = true /\ o1 <> SkippedNoFile /\
                  regen_tracker sa ⊆ {[basename (name (file_of x))]} ∪ regen_tracker s1 /\
                  (basename (name (file_of x)) ∈ regen_tracker s2 \/
                   all_exist (storage s2) (file_of x)))).
  { unfold has_file. destruct o1; try congruence.
    - left. tauto.
    - right. destruct Hfacts as (Hfile & Hin & Htr).
      repeat split; [assumption | discriminate | rewrite Htr; set_solver | left; set_solver].
    - right. destruct Hfacts as (Hfile & Hall & Htr).
      repeat split; [assumption | discriminate | rewrite Htr; set_solver |].
      right. apply (all_exist_mono (storage s1)); [set_solver | exact Hall].
    - right. destruct Hfacts as (Hfile & Hall & Htr).
      repeat split; [assumption | discriminate | rewrite Htr; set_solver |].
      right. apply (all_exist_mono (storage sa)); [set_solver | exact Hall]. }
  destruct (step_skip x s2) as (sb & o2 & Hstep & Hsettled).
  { destruct Hpre as [[Hfile _]|(_ & _ & _ & Hex)]; tauto. }
  exists sb, o2. split; [exact Hstep|]. split; [exact Hsettled|].
  unfold settled_again in Hsettled.
  destruct Hsettled as (_ & _ & _ & _ & Hsub & Hfile).
  destruct Hpre as [[Hnf Htr]|(Hf & Hno & Htr & _)].
  - rewrite Hnf in Hfile. destruct Hfile as (-> & _).
    split; [rewrite Htr; set_solver|]. split; [reflexivity|].
    intros Hc. unfold has_file in Hnf. destruct o1; try discriminate; destruct Hfacts; congruence.
  - rewrite Hf in Hfile. destruct Hfile as (Hsk & Hin & _).
    split; [set_solver|]. split; [congruence | intros _; exact Hsk].
Qed.

Lemma run_mono (l : list instance) :
  forall (s s' : loop_state) (r : result unit),
    for_each (regenerate_one E codec self) l s = (r, s') ->
    dom (storage s) ⊆ dom (storage s') /\
    regen_tracker s ⊆ regen_tracker s' /\
    (error_count s <= error_count s')%nat /\
    exists outs, printed s' = (printed s ++ outs)%list.
Proof.
  induction l as [|x l IH]; intros s s' r; simpl.
  - unfold ret. intros [= <- <-]. repeat split; try reflexivity.
    exists []. rewrite app_nil_r. reflexivity.
  - unfold mbind.
    destruct (regenerate_one E codec self x s) as [[[]|e] sa] eqn:Hstep;
      destruct (step_cases _ _ _ _ Hstep) as (Hd & Ht & He & Hp).
    + intros Hrest. destruct (IH _ _ _ Hrest) as (Hd' & Ht' & He' & outs & Hp').
      destruct Hp as (o & Ho & _).
      repeat split; [set_solver | set_solver | lia |].
      exists (o :: outs). rewrite Hp', Ho, <- app_assoc. reflexivity.
    + intros [= <- <-]. repeat split; try assumption.
      exists []. rewrite app_nil_r. exact Hp.
Qed.

Lemma rerun_sim (l : list instance) :
  forall (s1 s2 s1' s2' : loop_state) (r1 r2 : result unit),
    for_each (regenerate_one E codec self) l s1 = (r1, s1') ->
    for_each (regenerate_one E codec self) l s2 = (r2, s2') ->
    regen_tracker s1 ⊆ regen_tracker s2 ->
    dom (storage s1') ⊆ dom (storage s2) ->
    exists outs1 outs2,
      printed s1' = (printed s1 ++ outs1)%list /\
      printed s2' = (printed s2 ++ outs2)%list /\
      Forall (fun p => agree (fst p) (snd p)) (zip outs1 outs2).
Proof.
  induction l as [|x l IH]; intros s1 s2 s1' s2' r1 r2 Hrun1 Hrun2 Htr Hdom.
  - simpl in *. unfold ret in *. injection Hrun1 as <- <-. injection Hrun2 as <- <-.
    exists [], []. rewrite !app_nil_r. repeat split. constructor.
  - destruct (run_mono _ _ _ _ Hrun2) as (_ & _ & _ & outs2 & Hout2).
    simpl in Hrun1, Hrun2. unfold mbind in Hrun1, Hrun2.
    destruct (regenerate_one E codec self x s1) as [[[]|e1] sa] eqn:Hstep1.
    2:{ injection Hrun1 as <- <-.
        destruct (step_cases _ _ _ _ Hstep1) as (_ & _ & _ & Hp).
        exists [], outs2. rewrite app_nil_r. repeat split; try assumption. constructor. }
    destruct (step_cases _ _ _ _ Hstep1) as (Hd1 & Ht1 & _ & o1 & Ho1 & Hfacts).
    destruct (run_mono _ _ _ _ Hrun1) as (Hd1' & _ & _ & _).
    assert (Hcase : (o1 = ErrorMissingSource \/ o1 = ErrorCorrupt) \/
                    (o1 <> ErrorMissingSource /\ o1 <> ErrorCorrupt))
      by (destruct o1; (left; tauto) || (right; split; discriminate)).
    destruct Hcase as [Herr|Hok].
    + assert (Htrsa : regen_tracker sa = regen_tracker s1)
        by (destruct Herr as [-> | ->]; tauto).
      destruct (regenerate_one E codec self x s2) as [[[]|e2] sb] eqn:Hstep2.
      2:{ injection Hrun2 as <- <-.
          destruct (step_cases _ _ _ _ Hstep2) as (_ & _ & _ & Hp).
          destruct (run_mono _ _ _ _ Hrun1) as (_ & _ & _ & outs1 & Hout1).
          exists (o1 :: outs1), []. rewrite app_nil_r.
          repeat split; [|assumption|constructor].
          rewrite Hout1, Ho1, <- app_assoc. reflexivity. }
      destruct (step_cases _ _ _ _ Hstep2) as (Hd2 & Ht2 & _ & o2 & Ho2 & _).
      destruct (IH sa sb s1' s2' r1 r2 Hrun1 Hrun2) as (outs1 & outs2' & Hp1 & Hp2 & Hall).
      { rewrite Htrsa. set_solver. }
      { set_solver. }
      exists (o1 :: outs1), (o2 :: outs2'). repeat split.
      * rewrite Hp1, Ho1, <- app_assoc. reflexivity.
      * rewrite Hp2, Ho2, <- app_assoc. reflexivity.
      * simpl. constructor; [|exact Hall]. simpl.
        split; destruct Herr as [-> | ->]; discriminate.
    + destruct (step_rerun x s1 sa s2 o1 Hstep1 Ho1) as (sb & o2 & Hstep2 & Hset & Htrb & Hnf & Hc);
        [tauto | tauto | assumption | set_solver |].
      rewrite Hstep2 in Hrun2.
      destruct Hset as (Ho2 & Hst & _).
      destruct (IH sa sb s1' s2' r1 r2 Hrun1 Hrun2) as (outs1 & outs2' & Hp1 & Hp2 & Hall).
      { exact Htrb. }
      { rewrite Hst. exact Hdom. }
      exists (o1 :: outs1), (o2 :: outs2'). repeat split.
      * rewrite Hp1, Ho1, <- app_assoc. reflexivity.
      * rewrite Hp2, Ho2, <- app_assoc. reflexivity.
      * simpl. constructor; [|exact Hall]. split; assumption.
Qed.

Lemma rerun_ok (l : list instance) :
  forall (s1 s1' s2 : loop_state),
    for_each (regenerate_one E codec self) l s1 = (Ok tt, s1') ->
    error_count s1' = error_count s1 ->
    regen_tracker s1 ⊆ regen_tracker s2 ->
    dom (storage s1') ⊆ dom (storage s2) ->
    exists s2' outs2,
      for_each (regenerate_one E codec self) l s2 = (Ok tt, s2') /\
      printed s2' = (printed s2 ++ outs2)%list /\
      storage s2' = storage s2 /\
      processed_count s2' = processed_count s2 /\
      error_count s2' = error_count s2 /\
      Forall2 (fun x o => if has_file x then skipped_as_existing o = true
                          else o = SkippedNoFile) l outs2 /\
      skipped_exists s2' = (skipped_exists s2 + length (List.filter has_file l))%nat /\
      skipped_no_file s2' =
        (skipped_no_file s2 + length (List.filter (fun x => negb (has_file x)) l))%nat.
Proof.
  induction l as [|x l IH]; intros s1 s1' s2 Hrun1 Herr Htr Hdom.
  - exists s2, []. simpl. unfold ret. rewrite app_nil_r.
    repeat split; try constructor; lia.
  - simpl in Hrun1. unfold mbind in Hrun1.
    destruct (regenerate_one E codec self x s1) as [[[]|e1] sa] eqn:Hstep1; [|discriminate].
    destruct (step_cases _ _ _ _ Hstep1) as (Hd1 & Ht1 & He1 & o1 & Ho1 & Hfacts).
    destruct (run_mono _ _ _ _ Hrun1) as (Hd1' & _ & He1' & _).
    assert (Hsame : error_count sa = error_count s1) by lia.
    destruct (step_rerun x s1 sa s2 o1 Hstep1 Ho1) as (sb & o2 & Hstep2 & Hset & Htrb & _ & _).
    { intros ->. destruct Hfacts. lia. }
    { intros ->. destruct Hfacts. lia. }
    { exact Htr. }
    { set_solver. }
    destruct Hset as (Ho2 & Hst & Hpc & Hec & _ & Hfile).
    destruct (IH sa s1' sb Hrun1) as
      (s2' & outs2 & Hrun2 & Hp2 & Hst2 & Hpc2 & Hec2 & Hall & Hse & Hsn).
    { lia. }
    { exact Htrb. }
    { rewrite Hst. exact Hdom. }
    exists s2', (o2 :: outs2). simpl. unfold mbind. rewrite Hstep2.
    repeat split; try congruence.
    + rewrite Hp2, Ho2, <- app_assoc. reflexivity.
    + constructor; [|exact Hall]. destruct (has_file x); tauto.
    + destruct (has_file x); simpl; destruct Hfile as (_ & ?); lia.
    + destruct (has_file x); simpl; destruct Hfile as (_ & ?); lia.
Qed.

End Rerun.

Lemma Forall_zip_lookup {A B} (P : A * B -> Prop) (l1 : list A) (l2 : list B) :
  Forall P (zip l1 l2) ->
  forall i a b, l1 !! i = Some a -> l2 !! i = Some b -> P (a, b).
Proof.
  revert l2. induction l1 as [|x l1 IH]; intros l2 Hall i a b H1 H2; [discriminate|].
  destruct l2 as [|y l2]; [discriminate|].
  simpl in Hall. apply Forall_cons in Hall as [Hhead Htail].
  destruct i as [|i]; simpl in H1, H2.
  - injection H1 as <-. injection H2 as <-. exact Hhead.
  - exact (IH l2 Htail i a b H1 H2).
Qed.

(** C5, as the code has it. Whatever happened in a first run without
    force (errors, or an exception that ended it), a rerun on the storage
    it left prints, for every instance both runs settled, "No file" where
    the first run did, and "All thumbnails exist" or "Already processed"
    where the first run processed the file or skipped it as existing. When
    the first run ended without any error, the rerun ends too, processes
    nothing, has no error and leaves the storage as it is: every instance
    with a file is counted as skipped because its thumbnails exist, every
    instance without a file as skipped for having no file. *)
Theorem C5_rerun_skips_what_is_complete :
  forall (E : env) (codec : PIL.codec) (instances : list instance) (st0 : files)
         (r1 r2 : result unit) (s1 s2 : loop_state),
    regenerate_thumbs E codec (Cmd false) instances st0 = (r1, s1) ->
    regenerate_thumbs E codec (Cmd false) instances (storage s1) = (r2, s2) ->
    (forall i o1 o2,
       printed s1 !! i = Some o1 -> printed s2 !! i = Some o2 -> agree o1 o2) /\
    (r1 = Ok tt -> error_count s1 = 0%nat ->
       r2 = Ok tt /\
       storage s2 = storage s1 /\
       processed_count s2 = 0%nat /\
       error_count s2 = 0%nat /\
       Forall2 (fun x o => if has_file x then skipped_as_existing o = true
                           else o = SkippedNoFile) instances (printed s2) /\
       skipped_exists s2 = length (List.filter has_file instances) /\
       skipped_no_file s2 = length (List.filter (fun x => negb (has_file x)) instances)).
Proof.
  intros E codec instances st0 r1 r2 s1 s2 Hrun1 Hrun2. unfold regenerate_thumbs in *.
  split.
  - destruct (rerun_sim E codec (Cmd false) eq_refl instances _ _ _ _ _ _ Hrun1 Hrun2)
      as (outs1 & outs2 & Hp1 & Hp2 & Hall).
    + reflexivity.
    + reflexivity.
    + simpl in Hp1, Hp2. rewrite Hp1, Hp2.
      intros i o1 o2 H1 H2. exact (Forall_zip_lookup _ _ _ Hall i o1 o2 H1 H2).
  - intros -> Herr.
    destruct (rerun_ok E codec (Cmd false) eq_refl instances _ _ (initial (storage s1)) Hrun1)
      as (s2' & outs2 & Hrun2' & Hp2 & Hst & Hpc & Hec & Hall & Hse & Hsn).
    + exact Herr.
    + reflexivity.
    + reflexivity.
    + rewrite Hrun2' in Hrun2. injection Hrun2 as <- <-.
      simpl in Hp2, Hst, Hpc, Hec, Hse, Hsn. rewrite Hp2.
      repeat split; assumption.
Qed.

Lemma C5_witness :
  fst second_run = Ok tt /\
  storage (snd second_run) = storage (snd first_run) /\
  processed_count (snd second_run) = 0%nat /\
  skipped_exists (snd second_run) = 2%nat /\
  skipped_no_file (snd second_run) = 1%nat.
Proof.
  destruct (C5_rerun_skips_what_is_complete plain_env fake_codec dataset originals
              (fst first_run) (fst second_run) (snd first_run) (snd second_run)
              (surjective_pairing _) (surjective_pairing _)) as [_ Hok].
  destruct Hok as (H1 & H2 & H3 & _ & _ & H4 & H5).
  - vm_compute. reflexivity.
  - vm_compute. reflexivity.
  - repeat split; assumption.
Defined.

(** C5, as stated, fails. The first run over three instances, one of
    them without a file, ends without an error; the second run prints
    "No file" for that instance, so not every item is classified as having
    its thumbnails. *)
Lemma C5_counterexample :
  fst first_run = Ok tt /\
  error_count (snd first_run) = 0%nat /\
  printed (snd first_run) = [Processed; SkippedNoFile; SkippedAlreadyProcessed] /\
  printed (snd second_run) = [SkippedExists; SkippedNoFile; SkippedAlreadyProcessed] /\
  skipped_exists (snd second_run) = 2%nat /\
  length dataset = 3%nat.
Proof. repeat split; vm_compute; reflexivity. Qed.

(** * Further properties *)

(** ** Thumbnail file names *)

Lemma rsplit1_Some (sep : ascii) (s a b : string) :
  rsplit1 sep s = Some (a, b) ->
  s = a ++ String sep b /\ ~ In sep (list_ascii_of_string b).
Proof.
  revert a b. induction s as [|c r IH]; intros a b; simpl; [discriminate|].
  destruct (rsplit1 sep r) as [[a' b']|] eqn:Hr.
  - intros [= <- <-]. destruct (IH a' b' eq_refl) as [-> Hb]. split; [reflexivity | exact Hb].
  - destruct (Ascii.eqb_spec c sep) as [->|Hne]; [|discriminate].
    intros [= <- <-]. split; [reflexivity|].
    clear IH. induction r as [|d r IH]; simpl in *; [tauto|].
    destruct (rsplit1 sep r) as [[? ?]|]; [discriminate|].
    destruct (Ascii.eqb_spec d sep) as [->|Hd]; [discriminate|].
    intros [H|H]; [congruence | exact (IH eq_refl H)].
Qed.

Lemma string_app_length (a b : string) :
  String.length (a ++ b) = (String.length a + String.length b)%nat.
Proof. induction a as [|c a IH]; simpl; [reflexivity | rewrite IH; reflexivity]. Qed.

Lemma string_app_inv_head (a x y : string) : a ++ x = a ++ y -> x = y.
Proof. induction a; simpl; [tauto | intros [= H]; auto]. Qed.

Lemma string_app_inv_tail (x y b : string) : x ++ b = y ++ b -> x = y.
Proof.
  revert y. induction x as [|c x IH]; intros [|d y] H; simpl in H.
  - reflexivity.
  - apply (f_equal String.length) in H. rewrite !string_app_length in H.
    cbn [String.length] in H. lia.
  - apply (f_equal String.length) in H. rewrite !string_app_length in H.
    cbn [String.length] in H. lia.
  - injection H as -> H. f_equal. apply IH, H.
Qed.

Lemma string_app_assoc (a b c : string) : (a ++ b) ++ c = a ++ b ++ c.
Proof.
  induction a as [|d a IH]; [reflexivity|].
  change (String d ((a ++ b) ++ c) = String d (a ++ b ++ c)). f_equal. exact IH.
Qed.

(** A thumbnail's file name is longer than the part of the original's name
    it starts with, or differs from it after that part. *)
Lemma thumb_name_not_original (self : ImageWithThumbsFieldFile) (thumb_name : string) :
  _calc_thumb_filename self thumb_name <> name self.
Proof.
  unfold _calc_thumb_filename, rsplit1_first.
  destruct (rsplit1 "." (name self)) as [[a b]|] eqn:Hsplit.
  - destruct (rsplit1_Some _ _ _ _ Hsplit) as [Hname _].
    intros H. rewrite <- H in Hname. apply string_app_inv_head in Hname. discriminate.
  - intros H. apply (f_equal String.length) in H.
    rewrite string_app_length in H. simpl in H. lia.
Qed.


(** X1. Where [_calc_thumb_filename] puts the thumbnail: the part of the name
    before its last dot, wherever that dot is, then [_<thumb>.<format>];
    a name without a dot is kept whole. *)
Theorem calc_thumb_filename_shape :
  forall (self : ImageWithThumbsFieldFile) (thumb_name : string),
    (forall pre ext,
       name self = pre ++ "." ++ ext -> ~ In "."%char (list_ascii_of_string ext) ->
       _calc_thumb_filename self thumb_name =
         pre ++ "_" ++ thumb_name ++ "." ++ get_thumbnail_format self) /\
    (~ In "."%char (list_ascii_of_string (name self)) ->
       _calc_thumb_filename self thumb_name =
         name self ++ "_" ++ thumb_name ++ "." ++ get_thumbnail_format self).
Proof.
  intros self thumb_name. unfold _calc_thumb_filename, rsplit1_first. split.
  - intros pre ext Hname Hdot. rewrite Hname.
    change (pre ++ "." ++ ext) with (pre ++ String "."%char ext).
    rewrite (rsplit1_last_sep "." pre ext Hdot). reflexivity.
  - intros Hdot. rewrite (rsplit1_absent _ _ Hdot). reflexivity.
Qed.

Lemma calc_thumb_filename_shape_witness :
  _calc_thumb_filename (FieldFile "a/b/photo.png" (Field [] (Some "jpg"))) "thumb" =
    "a/b/photo_thumb.jpg" /\
  _calc_thumb_filename (FieldFile "up.loads/photo" (Field [] None)) "thumb" =
    "up_thumb.loads/photo".
Proof.
  split.
  - apply (proj1 (calc_thumb_filename_shape
                    (FieldFile "a/b/photo.png" (Field [] (Some "jpg"))) "thumb")
                 "a/b/photo" "png"); [reflexivity|].
    simpl. intros [H|[H|[H|[]]]]; discriminate.
  - apply (proj1 (calc_thumb_filename_shape
                    (FieldFile "up.loads/photo" (Field [] None)) "thumb")
                 "up" "loads/photo"); [reflexivity|].
    simpl. intuition discriminate.
Defined.

(** X2. Two thumbnails of one file with different names are stored under
    different file names. *)
Theorem calc_thumb_filename_distinct :
  forall (self : ImageWithThumbsFieldFile) (t1 t2 : string),
    t1 <> t2 -> _calc_thumb_filename self t1 <> _calc_thumb_filename self t2.
Proof.
  intros self t1 t2 Hne. unfold _calc_thumb_filename. intros H. apply Hne.
  apply string_app_inv_head in H. apply (string_app_inv_head "_") in H.
  apply string_app_inv_tail in H. exact H.
Qed.

Lemma calc_thumb_filename_distinct_witness :
  _calc_thumb_filename (photo two_thumbs) "small" <>
  _calc_thumb_filename (photo two_thumbs) "large".
Proof. apply calc_thumb_filename_distinct. discriminate. Defined.

(** X3. No thumbnail is stored under the name of its original. *)
Theorem calc_thumb_filename_not_original :
  forall (self : ImageWithThumbsFieldFile) (thumb_name : string),
    _calc_thumb_filename self thumb_name <> name self.
Proof. exact thumb_name_not_original. Qed.

(** ** What the pipeline writes and deletes *)

Section Writes.
Variable E : env.
Variable codec : PIL.codec.

(** One variant either stores its one file or changes nothing. *)
Lemma create_and_store_thumb_effect self image thumb_name options r st st' :
  create_and_store_thumb E codec self image thumb_name options st = (r, st') ->
  (r = Ok tt /\ exists bytes, st' = <[_calc_thumb_filename self thumb_name := bytes]> st) \/
  ((exists e, r = Raise e) /\ st' = st).
Proof.
  unfold create_and_store_thumb.
  destruct (opt_size options) as [[w h|v]|]; unfold raise;
    try (intros [= <- <-]; right; split; [eexists; reflexivity | reflexivity]).
  unfold mbind, lift.
  destruct (_create_thumbnail _ _ _ _) as [im|e1];
    [|intros [= <- <-]; right; split; [eexists; reflexivity | reflexivity]].
  destruct (PIL.save codec im _) as [bytes|e2];
    [|intros [= <- <-]; right; split; [eexists; reflexivity | reflexivity]].
  unfold storage_save. destruct (save_error E _); intros [= <- <-].
  - right. split; [eexists; reflexivity | reflexivity].
  - left. split; [reflexivity | eexists; reflexivity].
Qed.

Lemma generate_thumbs_frame self name content r st st' :
  generate_thumbs E codec self name content st = (r, st') ->
  forall n, (forall thumb, In thumb (thumbs (field self)) ->
               n <> _calc_thumb_filename self (fst thumb)) ->
            st' !! n = st !! n.
Proof.
  unfold generate_thumbs, mbind at 1, lift.
  destruct (PIL.open codec content) as [image|e]; [|intros [= <- <-]; reflexivity].
  generalize (thumbs (field self)) as l. intros l. revert st.
  induction l as [|[t o] l IH]; intros st; simpl.
  - unfold ret. intros [= <- <-]. reflexivity.
  - unfold mbind.
    destruct (create_and_store_thumb E codec self image t o st) as [[[]|e] st1] eqn:Hone;
      destruct (create_and_store_thumb_effect _ _ _ _ _ _ _ Hone)
        as [[_ [bytes ->]]|[_ ->]].
    + intros Hrest n Hn. rewrite (IH _ Hrest n) by (intros thumb Hin; apply Hn; right; exact Hin).
      apply lookup_insert_ne. intros Heq. apply (Hn (t, o)); [left; reflexivity | symmetry; exact Heq].
    + intros Hrest n Hn. apply (IH _ Hrest n). intros thumb Hin. apply Hn. right. exact Hin.
    + intros [= <- <-]. intros n Hn.
      apply lookup_insert_ne. intros Heq. apply (Hn (t, o)); [left; reflexivity | symmetry; exact Heq].
    + intros [= <- <-]. reflexivity.
Qed.

(** X4. [generate_thumbs] writes to the file names of its thumbnails and to
    nothing else, whether it returns or raises: every other file, the
    original among them, is as it was. When it returns, every thumbnail
    is stored. *)
Theorem generate_thumbs_writes_only_thumbnails :
  forall (self : ImageWithThumbsFieldFile) (name content : string)
         (r : result unit) (st st' : files),
    generate_thumbs E codec self name content st = (r, st') ->
    (forall n, (forall thumb, In thumb (thumbs (field self)) ->
                  n <> _calc_thumb_filename self (fst thumb)) ->
               st' !! n = st !! n) /\
    st' !! Fields.name self = st !! Fields.name self /\
    dom st ⊆ dom st' /\
    (r = Ok tt -> all_exist st' self).
Proof.
  intros self name content r st st' Hgen.
  pose proof (generate_thumbs_frame _ _ _ _ _ _ Hgen) as Hframe.
  destruct (generate_thumbs_dom _ _ _ _ _ _ _ _ Hgen) as [Hdom Hall].
  repeat split; try assumption.
  apply Hframe. intros thumb _ Heq. symmetry in Heq. revert Heq. apply thumb_name_not_original.
Qed.


Lemma save_effect :
  forall (self self' : ImageWithThumbsFieldFile) (name content : string) (st st' : files),
    save E codec self name content st = (Ok self', st') ->
    Fields.name self' = generate_filename E name /\
    field self' = field self /\
    st' !! Fields.name self' = Some content /\
    all_exist st' self' /\
    (forall n, n <> Fields.name self' ->
               (forall thumb, In thumb (thumbs (field self')) ->
                  n <> _calc_thumb_filename self' (fst thumb)) ->
               st' !! n = st !! n).
Proof.
  intros self self' name content st st'.
  unfold save, super_save, mbind at 1, mbind at 1, storage_save.
  destruct (save_error E (generate_filename E name)); [discriminate|].
  unfold ret, try_except, mbind at 1.
  set (stored := FieldFile (generate_filename E name) (field self)).
  destruct (generate_thumbs E codec stored name content
              (<[generate_filename E name := content]> st)) as [[[]|e] st1] eqn:Hgen.
  - intros [= <- <-].
    pose proof (generate_thumbs_frame _ _ _ _ _ _ Hgen) as Hframe.
    destruct (generate_thumbs_dom _ _ _ _ _ _ _ _ Hgen) as [_ Hall].
    repeat split.
    + rewrite (Hframe (Fields.name stored)).
      * apply lookup_insert_eq.
      * intros thumb _ Heq. symmetry in Heq. revert Heq. apply thumb_name_not_original.
    + apply Hall. reflexivity.
    + intros n Hn Hthumbs. rewrite (Hframe n Hthumbs). apply lookup_insert_ne.
      intros Heq. apply Hn. symmetry. exact Heq.
  - destruct (is_IOError e); [|unfold raise; discriminate].
    unfold mbind, lift, raise. destruct (getattr e "message") as [m|e']; [|discriminate].
    destruct (contains "cannot identify" m); [discriminate|].
    destruct (contains "bad EPS header" m); discriminate.
Qed.

(** X6. A field without thumbnails still decodes the upload: [save] returns,
    having stored the original and nothing else, when the codec opens the
    content, and raises when it does not. *)
Theorem save_without_thumbs_still_decodes :
  forall (self : ImageWithThumbsFieldFile) (name content : string) (st : files),
    thumbs (field self) = [] ->
    save_error E (generate_filename E name) = None ->
    (forall image, PIL.open codec content = Ok image ->
       save E codec self name content st =
         (Ok (FieldFile (generate_filename E name) (field self)),
          <[generate_filename E name := content]> st)) /\
    (forall e, PIL.open codec content = Raise e ->
       exists e', save E codec self name content st =
                    (Raise e', <[generate_filename E name := content]> st)).
Proof.
  intros self name content st Hthumbs Hsave. split.
  - intros image Hopen.
    unfold save, super_save, mbind at 1, storage_save. rewrite Hsave. simpl.
    unfold try_except, mbind at 1, generate_thumbs, mbind at 1, lift. cbn [field].
    rewrite Hopen, Hthumbs. reflexivity.
  - intros e Hopen.
    unfold save, super_save, mbind at 1, storage_save. rewrite Hsave. simpl.
    unfold try_except, mbind at 1.
    rewrite (generate_thumbs_undecodable _ _ _ _ _ _ _ Hopen).
    destruct (is_IOError e); [|eexists; reflexivity].
    unfold mbind, lift, raise. destruct (getattr e "message") as [m|e']; [|eexists; reflexivity].
    destruct (contains "cannot identify" m); [eexists; reflexivity|].
    destruct (contains "bad EPS header" m); eexists; reflexivity.
Qed.

(** Deleting a list of thumbnails that the backend lets go. *)
Lemma delete_thumbs_ok self (l : list (string * thumb_options)) (st : files) :
  (forall thumb, In thumb l ->
     delete_error E (_calc_thumb_filename self (fst thumb)) = None) ->
  exists st',
    for_each
      (fun thumb : string * thumb_options =>
         let '(thumb_name, thumb_options) := thumb in
         let thumb_filename := _calc_thumb_filename self thumb_name in
         storage_delete E thumb_filename) l st = (Ok tt, st') /\
    (forall thumb, In thumb l -> st' !! _calc_thumb_filename self (fst thumb) = None) /\
    (forall n, (forall thumb, In thumb l -> n <> _calc_thumb_filename self (fst thumb)) ->
               st' !! n = st !! n) /\
    dom st' ⊆ dom st.
Proof.
  revert st. induction l as [|[t o] l IH]; intros st Hok.
  - exists st. simpl. unfold ret. repeat split; try reflexivity. intros thumb [].
  - simpl. unfold mbind, storage_delete.
    pose proof (Hok (t, o) ltac:(left; reflexivity)) as Hhead. simpl in Hhead.
    rewrite Hhead.
    destruct (IH (base.delete (_calc_thumb_filename self t) st)) as (st' & Hrun & Hgone & Hframe & Hdom).
    { intros thumb Hin. apply Hok. right. exact Hin. }
    exists st'. split; [exact Hrun|]. repeat split.
    + intros thumb [<-|Hin]; [|apply Hgone, Hin]. simpl.
      apply not_elem_of_dom. intros Hin. apply Hdom in Hin.
      rewrite dom_delete in Hin. set_solver.
    + intros n Hn. rewrite Hframe by (intros thumb Hin; apply Hn; right; exact Hin).
      apply lookup_delete_ne. intros Heq. apply (Hn (t, o)); [left; reflexivity | symmetry; exact Heq].
    + rewrite Hdom, dom_delete. set_solver.
Qed.

Lemma delete_effect :
  forall (self : ImageWithThumbsFieldFile) (st : files),
    (forall n, delete_error E n = None) ->
    exists st',
      delete E self st = (Ok (FieldFile "" (field self)), st') /\
      (forall thumb, In thumb (thumbs (field self)) ->
         st' !! _calc_thumb_filename self (fst thumb) = None) /\
      (Fields.name self <> "" -> st' !! Fields.name self = None) /\
      (forall n, n <> Fields.name self ->
                 (forall thumb, In thumb (thumbs (field self)) ->
                    n <> _calc_thumb_filename self (fst thumb)) ->
                 st' !! n = st !! n).
Proof.
  intros self st Hok.
  destruct (delete_thumbs_ok self (thumbs (field self)) st) as (st1 & Hrun & Hgone & Hframe & Hdom).
  { intros thumb _. apply Hok. }
  unfold delete, mbind. cbv beta zeta. cbv zeta in Hrun. rewrite Hrun. unfold super_delete.
  destruct (truthy (PyStr (Fields.name self))) eqn:Htruthy.
  2:{ exists st1. unfold ret. simpl in Htruthy.
      destruct (String.eqb_spec (Fields.name self) "") as [Hempty|]; [|discriminate].
      destruct self as [nm fld]. simpl in *. subst nm.
      repeat split; try assumption; try congruence. intros n _ Hn. apply Hframe, Hn. }
  exists (base.delete (Fields.name self) st1).
  unfold storage_delete. rewrite Hok. unfold ret. repeat split.
    + intros thumb Hin. rewrite lookup_delete_ne; [apply Hgone, Hin|].
      intros Heq. symmetry in Heq. revert Heq. apply thumb_name_not_original.
    + intros _. apply lookup_delete_eq.
    + intros n Hn Hthumbs. rewrite lookup_delete_ne by congruence. apply Hframe, Hthumbs.
Qed.


(** X5. When [save] returns, the original is stored under the name the field
    generated, with the uploaded content, and every thumbnail is stored;
    no file other than the original and the thumbnails has changed. *)
Theorem save_stores_original_and_thumbnails :
  forall (self self' : ImageWithThumbsFieldFile) (name content : string) (st st' : files),
    save E codec self name content st = (Ok self', st') ->
    Fields.name self' = generate_filename E name /\
    field self' = field self /\
    st' !! Fields.name self' = Some content /\
    all_exist st' self' /\
    (forall n, n <> Fields.name self' ->
               (forall thumb, In thumb (thumbs (field self')) ->
                  n <> _calc_thumb_filename self' (fst thumb)) ->
               st' !! n = st !! n).
Proof. exact save_effect. Qed.

(** X7. When the backend refuses nothing, [delete] removes every thumbnail
    and the original, clears the file's name and leaves every other file
    as it was. *)
Theorem delete_removes_thumbnails_and_original :
  forall (self : ImageWithThumbsFieldFile) (st : files),
    (forall n, delete_error E n = None) ->
    exists st',
      delete E self st = (Ok (FieldFile "" (field self)), st') /\
      (forall thumb, In thumb (thumbs (field self)) ->
         st' !! _calc_thumb_filename self (fst thumb) = None) /\
      (Fields.name self <> "" -> st' !! Fields.name self = None) /\
      (forall n, n <> Fields.name self ->
                 (forall thumb, In thumb (thumbs (field self)) ->
                    n <> _calc_thumb_filename self (fst thumb)) ->
                 st' !! n = st !! n).
Proof. exact delete_effect. Qed.


(** X9. Saving a file and deleting it again gives the storage back, when
    neither the original's name nor a thumbnail's name was in use and the
    backend refuses nothing. *)
Theorem save_then_delete_restores_storage :
  forall (self self' : ImageWithThumbsFieldFile) (name content : string) (st st1 : files),
    (forall n, delete_error E n = None) ->
    save E codec self name content st = (Ok self', st1) ->
    generate_filename E name <> "" ->
    st !! generate_filename E name = None ->
    (forall thumb, In thumb (thumbs (field self)) ->
       st !! _calc_thumb_filename self' (fst thumb) = None) ->
    delete E self' st1 = (Ok (FieldFile "" (field self)), st).
Proof.
  intros self self' name content st st1 Hok Hsave Hname Hfree Hfree_thumbs.
  destruct (save_effect _ _ _ _ _ _ Hsave) as (Hn & Hf & _ & _ & Hframe).
  destruct (delete_effect self' st1 Hok) as (st2 & Hdel & Hgone & Horig & Hframe2).
  rewrite Hdel, Hf. f_equal. apply map_eq. intros n.
  destruct (string_dec n (Fields.name self')) as [->|Hne].
  - rewrite Horig by congruence. rewrite Hn. symmetry. exact Hfree.
  - destruct (in_dec string_dec n
                (map (fun thumb => _calc_thumb_filename self' (fst thumb))
                     (thumbs (field self')))) as [Hin|Hnin].
    + apply in_map_iff in Hin as (thumb & <- & Hin).
      rewrite (Hgone thumb Hin). symmetry. apply Hfree_thumbs. rewrite <- Hf. exact Hin.
    + assert (Hother : forall thumb, In thumb (thumbs (field self')) ->
                         n <> _calc_thumb_filename self' (fst thumb)).
      { intros thumb Hin ->. apply Hnin. apply in_map_iff. exists thumb. tauto. }
      rewrite (Hframe2 n Hne Hother). apply (Hframe n Hne Hother).
Qed.

End Writes.

(** ** The regeneration command *)

Lemma missing_fold_filter (f : ImageWithThumbsFieldFile) (st : files)
    (l : list (string * thumb_options)) (acc : list string) :
  fold_left
    (fun missing_thumbs thumb =>
       let '(thumb_name, thumb_options) := thumb in
       let thumb_filename := _calc_thumb_filename f thumb_name in
       if negb (storage_exists st thumb_filename)
       then (missing_thumbs ++ [thumb_name])%list
       else missing_thumbs) l acc =
  (acc ++ map fst (List.filter
                     (fun thumb => negb (storage_exists st (_calc_thumb_filename f (fst thumb))))
                     l))%list.
Proof.
  revert acc. induction l as [|[n o] l IH]; intros acc; simpl.
  - rewrite app_nil_r. reflexivity.
  - rewrite IH. destruct (storage_exists st (_calc_thumb_filename f n)); simpl.
    + reflexivity.
    + rewrite <- app_assoc. reflexivity.
Qed.

(** X10. [get_missing_thumbnails] lists, in declared order, the names of the
    thumbnails whose file the storage does not have, and
    [needs_regeneration] holds under [--force] or when that list is not
    empty. *)
Theorem get_missing_thumbnails_lists_missing :
  forall (self : Command) (f : ImageWithThumbsFieldFile) (st : files),
    get_missing_thumbnails f st =
      map fst (List.filter
                 (fun thumb => negb (storage_exists st (_calc_thumb_filename f (fst thumb))))
                 (thumbs (field f))) /\
    needs_regeneration self f st =
      (force_regen self ||
       existsb (fun thumb => negb (storage_exists st (_calc_thumb_filename f (fst thumb))))
               (thumbs (field f)))%bool.
Proof.
  intros self f st.
  assert (Hmissing : get_missing_thumbnails f st =
            map fst (List.filter
                       (fun thumb => negb (storage_exists st (_calc_thumb_filename f (fst thumb))))
                       (thumbs (field f)))).
  { unfold get_missing_thumbnails. rewrite missing_fold_filter. reflexivity. }
  split; [exact Hmissing|].
  unfold needs_regeneration. destruct (force_regen self); [reflexivity|].
  rewrite Hmissing. simpl orb. clear Hmissing.
  induction (thumbs (field f)) as [|[n o] l IH]; simpl; [reflexivity|].
  destruct (storage_exists st (_calc_thumb_filename f n)); simpl; [exact IH | reflexivity].
Qed.

Section Counting.
Variable E : env.
Variable codec : PIL.codec.
Variable self : Command.

Ltac counted o :=
  intros [= <- <-]; exists o;
  cbn [storage regen_tracker processed_count skipped_no_file skipped_exists
         error_count printed completed skipped_as_existing andb negb];
  repeat split; try lia; try discriminate.

Ltac counting :=
  unfold mbind, try_except, on_storage, storage_read, ret, raise, print, incr_error,
    incr_processed, track;
  cbv beta;
  cbn [storage regen_tracker processed_count skipped_no_file skipped_exists
         error_count printed];
  destruct (storage _ !! _) as [?content|]; cbn [is_IOError exn_class_of mk_exn];
  [ match goal with
    | |- context [generate_thumbs ?E ?codec ?f ?n ?c ?st] =>
        let e := fresh "e" in
        let Hio := fresh "Hio" in
        destruct (generate_thumbs E codec f n c st) as [[[]|e] ?st1];
        cbn [storage regen_tracker processed_count skipped_no_file skipped_exists
               error_count printed];
        [ counted Processed
        | destruct (is_IOError e) eqn:Hio;
          [ counted ErrorCorrupt
          | intros [= <- <-];
            cbn [storage regen_tracker processed_count skipped_no_file skipped_exists
                   error_count printed];
            repeat split; exact Hio ] ]
    end
  | counted ErrorMissingSource ].

(** One instance: a line and one more in exactly one counter, or an
    exception that is no [IOError] and neither a line nor a count. *)
Lemma step_counts (x : instance) (s s' : loop_state) (r : result unit) :
  regenerate_one E codec self x s = (r, s') ->
  match r with
  | Ok _ =>
      exists o, printed s' = (printed s ++ [o])%list /\
        processed_count s' =
          (processed_count s + (if completed o && negb (skipped_as_existing o) then 1 else 0))%nat /\
        skipped_no_file s' =
          (skipped_no_file s + (match o with SkippedNoFile => 1 | _ => 0 end))%nat /\
        skipped_exists s' =
          (skipped_exists s + (if skipped_as_existing o then 1 else 0))%nat /\
        error_count s' =
          (error_count s + (match o with ErrorMissingSource | ErrorCorrupt => 1 | _ => 0 end))%nat /\
        (force_regen self = true -> o <> SkippedExists)
  | Raise e =>
      is_IOError e = false /\ printed s' = printed s /\
      processed_count s' = processed_count s /\ skipped_no_file s' = skipped_no_file s /\
      skipped_exists s' = skipped_exists s /\ error_count s' = error_count s
  end.
Proof.
  unfold regenerate_one.
  destruct (truthy (PyStr (name (file_of x)))).
  2:{ simpl negb. cbv iota. unfold mbind, print, incr_skipped_no_file.
      intros [= <- <-]. exists SkippedNoFile. simpl. repeat split; try lia. discriminate. }
  change (negb true) with false. cbv iota.
  unfold mbind at 1, tracked.
  destruct (bool_decide (basename (name (file_of x)) ∈ regen_tracker s)).
  { unfold mbind, print, incr_skipped_exists.
    intros [= <- <-]. exists SkippedAlreadyProcessed. simpl. repeat split; try lia. discriminate. }
  cbv iota. unfold mbind at 1.
  destruct (negb (needs_regeneration self (file_of x) (storage s))) eqn:Hneeds;
    [destruct (get_missing_thumbnails (file_of x) (storage s)) eqn:Hmissing|].
  - unfold mbind, print, incr_skipped_exists, track.
    intros [= <- <-]. exists SkippedExists. simpl. repeat split; try lia.
    intros Hforce. unfold needs_regeneration in Hneeds. rewrite Hforce in Hneeds. discriminate.
  - counting.
  - counting.
Qed.

Lemma lines_app kind l1 l2 : lines kind (l1 ++ l2) = (lines kind l1 + lines kind l2)%nat.
Proof. unfold lines. rewrite List.filter_app, length_app. reflexivity. Qed.

Lemma run_counts (l : list instance) :
  forall (s s' : loop_state) (r : result unit),
    for_each (regenerate_one E codec self) l s = (r, s') ->
    exists outs,
      printed s' = (printed s ++ outs)%list /\
      processed_count s' = (processed_count s + lines is_processed outs)%nat /\
      skipped_no_file s' = (skipped_no_file s + lines is_no_file outs)%nat /\
      skipped_exists s' = (skipped_exists s + lines skipped_as_existing outs)%nat /\
      error_count s' = (error_count s + lines is_error outs)%nat /\
      (force_regen self = true -> ~ In SkippedExists outs) /\
      match r with
      | Ok _ => length outs = length l
      | Raise e => is_IOError e = false /\ (length outs < length l)%nat
      end.
Proof.
  induction l as [|x l IH]; intros s s' r; simpl.
  - unfold ret. intros [= <- <-]. exists []. rewrite app_nil_r.
    unfold lines. simpl. repeat split; try lia; try tauto.
  - unfold mbind.
    destruct (regenerate_one E codec self x s) as [[[]|e] sa] eqn:Hstep;
      pose proof (step_counts _ _ _ _ Hstep) as Hc; cbv beta iota in Hc.
    + destruct Hc as (o & Hp & H1 & H2 & H3 & H4 & Hf).
      intros Hrest. destruct (IH _ _ _ Hrest) as (outs & Hp' & H1' & H2' & H3' & H4' & Hf' & Hr).
      exists (o :: outs).
      change (o :: outs) with ([o] ++ outs)%list. rewrite !lines_app.
      rewrite Hp', Hp, <- app_assoc, H1', H1, H2', H2, H3', H3, H4', H4.
      repeat split.
      * unfold lines. destruct o; simpl; lia.
      * unfold lines. destruct o; simpl; lia.
      * unfold lines. destruct o; simpl; lia.
      * unfold lines. destruct o; simpl; lia.
      * intros Hforce [Heq|Hin]; [exact (Hf Hforce Heq) | exact (Hf' Hforce Hin)].
      * destruct r as [[]|e]; simpl; [lia | split; [tauto | lia]].
    + destruct Hc as (Hio & Hp & H1 & H2 & H3 & H4).
      intros [= <- <-]. exists []. rewrite app_nil_r. unfold lines. simpl.
      repeat split; try lia; try assumption; try tauto.
Qed.

End Counting.

(** X11. The four counters of the summary are the numbers of instances
    settled in each way: [processed] the regenerated files,
    [skipped_no_file] the instances without a file, [skipped_exists] both
    kinds of skipped files and [errors] the two kinds of errors. A run
    that returns has settled every instance once, so the counters add up
    to their number. *)
Theorem regenerate_thumbs_counters_match_lines :
  forall (E : env) (codec : PIL.codec) (self : Command) (instances : list instance)
         (st : files) (r : result unit) (s : loop_state),
    regenerate_thumbs E codec self instances st = (r, s) ->
    processed_count s = lines is_processed (printed s) /\
    skipped_no_file s = lines is_no_file (printed s) /\
    skipped_exists s = lines skipped_as_existing (printed s) /\
    error_count s = lines is_error (printed s) /\
    (processed_count s + skipped_no_file s + skipped_exists s + error_count s)%nat =
      length (printed s) /\
    (r = Ok tt -> length (printed s) = length instances).
Proof.
  intros E codec self instances st r s Hrun.
  destruct (run_counts E codec self _ _ _ _ Hrun)
    as (outs & Hp & H1 & H2 & H3 & H4 & _ & Hr).
  simpl in Hp, H1, H2, H3, H4. subst outs.
  rewrite H1, H2, H3, H4. repeat split.
  - clear. unfold lines. induction (printed s) as [|o l IH]; [reflexivity|].
    destruct o; simpl in *; lia.
  - intros ->. exact Hr.
Qed.

Lemma regenerate_thumbs_counters_match_lines_witness :
  let s := snd first_run in
  regenerate_thumbs plain_env fake_codec (Cmd false)
    dataset originals = (Ok tt, s) /\
  processed_count s = lines is_processed (printed s) /\
  skipped_no_file s = lines is_no_file (printed s) /\
  skipped_exists s = lines skipped_as_existing (printed s) /\
  error_count s = lines is_error (printed s) /\
  (processed_count s + skipped_no_file s + skipped_exists s + error_count s)%nat =
    length (printed s) /\
  (Ok tt = Ok tt -> length (printed s) = length dataset).
Proof.
  assert (Hrun : regenerate_thumbs plain_env fake_codec (Cmd false)
                   dataset originals = (Ok tt, snd first_run))
    by (vm_compute; reflexivity).
  split; [exact Hrun|].
  exact (regenerate_thumbs_counters_match_lines _ _ _ _ _ _ _ Hrun).
Defined.

(** X12. The command is stopped only by an exception that is no
    [IOError]: a run that raises raises such an exception, and then has
    settled fewer instances than there are. *)
Theorem regenerate_thumbs_stopped_only_by_other_errors :
  forall (E : env) (codec : PIL.codec) (self : Command) (instances : list instance)
         (st : files) (e : exn) (s : loop_state),
    regenerate_thumbs E codec self instances st = (Raise e, s) ->
    is_IOError e = false /\ (length (printed s) < length instances)%nat.
Proof.
  intros E codec self instances st e s Hrun.
  destruct (run_counts E codec self _ _ _ _ Hrun) as (outs & Hp & _ & _ & _ & _ & _ & Hr).
  simpl in Hp. subst outs. exact Hr.
Qed.

(** X13. With [--force] no file is skipped for having its thumbnails: the line
    for that is never printed. *)
Theorem regenerate_thumbs_force_never_skips_existing :
  forall (E : env) (codec : PIL.codec) (self : Command) (instances : list instance)
         (st : files) (r : result unit) (s : loop_state),
    force_regen self = true ->
    regenerate_thumbs E codec self instances st = (r, s) ->
    ~ In SkippedExists (printed s).
Proof.
  intros E codec self instances st r s Hforce Hrun.
  destruct (run_counts E codec self _ _ _ _ Hrun) as (outs & Hp & _ & _ & _ & _ & Hf & _).
  simpl in Hp. subst outs. exact (Hf Hforce).
Qed.

(** ** Runs on the fixtures *)

Lemma generate_thumbs_writes_only_thumbnails_witness :
  let out := generate_thumbs plain_env fake_codec (photo two_thumbs) "photo.png"
               "IMG original" originals in
  fst out = Ok tt /\
  snd out !! "a/photo.png" = Some "IMG original" /\
  all_exist (snd out) (photo two_thumbs).
Proof.
  intros out.
  assert (Hok : fst out = Ok tt) by (vm_compute; reflexivity).
  destruct (generate_thumbs_writes_only_thumbnails plain_env fake_codec (photo two_thumbs)
              "photo.png" "IMG original" (fst out) originals (snd out)
              (surjective_pairing _)) as (_ & Horig & _ & Hall).
  split; [exact Hok|]. split; [|exact (Hall Hok)].
  etransitivity; [exact Horig|]. vm_compute. reflexivity.
Defined.

Lemma save_without_thumbs_still_decodes_witness :
  save plain_env fake_codec (FieldFile "" (Field [] None)) "a/photo.png" "IMG" ∅ =
    (Ok (FieldFile "a/photo.png" (Field [] None)), {["a/photo.png" := "IMG"]}).
Proof.
  exact (proj1 (save_without_thumbs_still_decodes plain_env fake_codec
                  (FieldFile "" (Field [] None)) "a/photo.png" "IMG" ∅ eq_refl eq_refl)
               (PIL.Image (200, 400) "RGB" false []) eq_refl).
Defined.

Lemma save_stores_original_and_thumbnails_witness :
  stored_photo !! "a/photo.png" = Some "IMG" /\
  all_exist stored_photo (photo two_thumbs).
Proof.
  destruct (save_stores_original_and_thumbnails plain_env fake_codec (photo two_thumbs)
              (photo two_thumbs) "a/photo.png" "IMG" ∅ stored_photo)
    as (_ & _ & Horig & Hall & _).
  - vm_compute. reflexivity.
  - split; [exact Horig | exact Hall].
Defined.

Lemma delete_removes_thumbnails_and_original_witness :
  exists st',
    delete plain_env (photo two_thumbs) stored_photo =
      (Ok (FieldFile "" (Field two_thumbs (Some "JPEG"))), st') /\
    st' !! "a/photo.png" = None.
Proof.
  destruct (delete_removes_thumbnails_and_original plain_env (photo two_thumbs) stored_photo)
    as (st' & Hdel & _ & Horig & _).
  - intros n. reflexivity.
  - exists st'. split; [exact Hdel|]. apply Horig. discriminate.
Defined.


Lemma save_then_delete_restores_storage_witness :
  let st : files := {["b/notes.txt" := "kept"]} in
  let st1 := snd (save plain_env fake_codec (photo two_thumbs) "a/photo.png" "IMG" st) in
  storage_exists st1 "a/photo_large.jpeg" = true /\
  delete plain_env (photo two_thumbs) st1 = (Ok (FieldFile "" (Field two_thumbs (Some "JPEG"))), st).
Proof.
  intros st st1. split; [vm_compute; reflexivity|].
  apply (save_then_delete_restores_storage plain_env fake_codec (photo two_thumbs)
           (photo two_thumbs) "a/photo.png" "IMG" st st1).
  - intros n. reflexivity.
  - vm_compute. reflexivity.
  - discriminate.
  - vm_compute. reflexivity.
  - intros thumb [<-|[<-|[]]]; vm_compute; reflexivity.
Defined.

Lemma regenerate_thumbs_stopped_only_by_other_errors_witness :
  let out := regenerate_thumbs plain_env fake_codec (Cmd false)
               [Instance 1 (photo broken_thumbs); Instance 2 (photo two_thumbs)] originals in
  fst out =
    Raise (mk_exn UploadedImageIsUnreadableError "incorrect size specifications $[300, 300]") /\
  is_IOError
    (mk_exn UploadedImageIsUnreadableError "incorrect size specifications $[300, 300]") = false /\
  (length (printed (snd out)) < 2)%nat.
Proof.
  intros out.
  assert (Hrun : regenerate_thumbs plain_env fake_codec (Cmd false)
                   [Instance 1 (photo broken_thumbs); Instance 2 (photo two_thumbs)] originals =
                 (Raise (mk_exn UploadedImageIsUnreadableError
                           "incorrect size specifications $[300, 300]"),
                  snd out)) by (vm_compute; reflexivity).
  split; [vm_compute; reflexivity|].
  exact (regenerate_thumbs_stopped_only_by_other_errors _ _ _ _ _ _ _ Hrun).
Defined.

Lemma regenerate_thumbs_force_never_skips_existing_witness :
  let out := regenerate_thumbs plain_env fake_codec (Cmd true) dataset
               (storage (snd first_run)) in
  printed (snd out) = [Processed; SkippedNoFile; SkippedAlreadyProcessed] /\
  ~ In SkippedExists (printed (snd out)).
Proof.
  intros out. split; [vm_compute; reflexivity|].
  exact (regenerate_thumbs_force_never_skips_existing plain_env fake_codec (Cmd true) dataset
           (storage (snd first_run)) (fst out) (snd out) eq_refl (surjective_pairing _)).
Defined.

(** ** The image a thumbnail is made of *)

Lemma scale_keeps_mode image target_size crop_option upscale im :
  Utils.scale image target_size crop_option upscale = Ok im ->
  PIL.mode im = PIL.mode image.
Proof.
  unfold Utils.scale, Py.bind.
  destruct (Utils.float_size image) as [[x_image y_image]|]; [|discriminate].
  destruct (Utils.scale_factors x_image y_image target_size) as [factors|]; [|discriminate].
  destruct (_ || upscale)%bool; [|intros [= <-]; reflexivity].
  destruct (Utils.round_to_int _) as [width|]; [|discriminate].
  destruct (Utils.round_to_int _) as [height|]; [|discriminate].
  intros Hresize. apply (resize_Ok _ _ _ Hresize).
Qed.

Lemma crop_size_mode image target_size crop_option im :
  Utils.crop image target_size crop_option = Ok im ->
  PIL.size im = target_size /\ PIL.mode im = PIL.mode image.
Proof.
  unfold Utils.crop, Py.bind.
  destruct (Utils.float_size image) as [[x_image y_image]|]; [|discriminate].
  destruct (Utils.parse_crop crop_option (x_image, y_image) target_size) as [[x y]|];
    [|discriminate].
  intros [= <-]. destruct target_size as [w h]. simpl. split; [|reflexivity].
  f_equal; lia.
Qed.

(** X14. The image [_create_thumbnail] returns is RGBA when the upload is
    RGBA or a palette image with transparency and RGB otherwise, and when
    a crop is asked for it has exactly the requested size, also when the
    upload is smaller than that and is not scaled up. *)
Theorem create_thumbnail_mode_and_size :
  forall (image im : PIL.image) (size : Z * Z) (crop_option : option string) (upscale : bool),
    _create_thumbnail image size crop_option upscale = Ok im ->
    PIL.mode im =
      (if (String.eqb (PIL.mode image) "RGBA" ||
           String.eqb (PIL.mode image) "P" && PIL.has_transparency image)%bool
       then "RGBA" else "RGB") /\
    (Utils.option_truthy crop_option = true -> PIL.size im = size).
Proof.
  intros image im size crop_option upscale. unfold _create_thumbnail, Py.bind.
  destruct (Utils.scale _ size crop_option upscale) as [scaled|] eqn:Hscale; [|discriminate].
  apply scale_keeps_mode in Hscale.
  assert (Hmode : PIL.mode scaled =
            (if (String.eqb (PIL.mode image) "RGBA" ||
                 String.eqb (PIL.mode image) "P" && PIL.has_transparency image)%bool
             then "RGBA" else "RGB")).
  { rewrite Hscale. unfold Utils.convert_colorspace. simpl String.eqb.
    destruct (String.eqb_spec (PIL.mode image) "RGBA") as [->|]; [reflexivity|].
    simpl orb. destruct (_ && _)%bool; reflexivity. }
  destruct crop_option as [c|].
  - destruct (Utils.option_truthy (Some c)).
    + intros Hcrop. apply crop_size_mode in Hcrop as [Hsize Hm].
      split; [congruence | intros _; exact Hsize].
    + intros [= <-]. split; [exact Hmode | discriminate].
  - intros [= <-]. split; [exact Hmode | discriminate].
Qed.

Lemma create_thumbnail_mode_and_size_witness :
  let small := PIL.Image (40, 30) "P" true [] in
  exists im,
    _create_thumbnail small (100, 100) (Some "center") false = Ok im /\
    PIL.mode im = "RGBA" /\ PIL.size im = (100, 100).
Proof.
  intros small.
  destruct (_create_thumbnail small (100, 100) (Some "center") false) as [im|] eqn:Hrun;
    [|vm_compute in Hrun; discriminate].
  exists im. split; [reflexivity|].
  destruct (create_thumbnail_mode_and_size small im (100, 100) (Some "center") false Hrun)
    as [Hmode Hsize].
  split; [exact Hmode | exact (Hsize eq_refl)].
Defined.

(** ** A window larger than the image *)

(** [int(max(0, min(v, epsilon)))] is 0 for a negative slack, whatever
    [v] is. *)
Lemma clamp_negative_slack (v : num) (epsilon : spec_float) (m e : Z) :
  xreal_of_float epsilon = XFin m e -> m < 0 ->
  py_int (py_max (NInt 0) (py_min v (NFloat epsilon))) = Ok 0.
Proof.
  intros Heps Hm.
  assert (Hneg : num_gt (NFloat epsilon) (NInt 0) = false).
  { unfold num_gt, num_compare. simpl xreal_of_num. rewrite Heps.
    set (K := Z.max 0 (- e)).
    rewrite (fin_compare_scaled m e 0 0 K) by lia.
    assert (0 < 2 ^ (e + K)) by (apply Z.pow_pos_nonneg; lia).
    destruct (Z.compare_spec (m * 2 ^ (e + K)) (0 * 2 ^ (0 + K))); try reflexivity. nia. }
  unfold py_max, py_min.
  destruct (num_lt (NFloat epsilon) v) eqn:Hlt.
  - rewrite Hneg. reflexivity.
  - destruct (num_gt v (NInt 0)) eqn:Hgt; [|reflexivity].
    exfalso.
    unfold num_lt, num_gt, num_compare in Hlt, Hgt.
    simpl xreal_of_num in Hlt. rewrite Heps in Hlt.
    change (xreal_of_num (NInt 0)) with (XFin 0 0) in Hgt.
    destruct (xreal_of_num v) as [|[]|mv ev]; try discriminate.
    set (K := Z.max 0 (Z.max (- e) (- ev))) in *.
    rewrite (fin_compare_scaled m e mv ev K) in Hlt by lia.
    rewrite (fin_compare_scaled mv ev 0 0 K) in Hgt by lia.
    assert (0 < 2 ^ (e + K)) by (apply Z.pow_pos_nonneg; lia).
    assert (0 < 2 ^ (ev + K)) by (apply Z.pow_pos_nonneg; lia).
    destruct (Z.compare_spec (mv * 2 ^ (ev + K)) (0 * 2 ^ (0 + K))); try discriminate.
    destruct (Z.compare_spec (m * 2 ^ (e + K)) (mv * 2 ^ (ev + K))); try discriminate; nia.
Qed.

(** X15. When the crop window is larger than the image on an axis, so
    that the slack is negative, every token that parses gives the offset
    0 on that axis. *)
Theorem get_cropping_offset_negative_slack :
  forall (token : string) (value : Z) (unit : Utils.crop_unit) (epsilon : spec_float)
         (m e : Z),
    Utils.match_crop_pattern token = Some (value, unit) ->
    (unit = Utils.Percent -> value < 2 ^ 53) ->
    xreal_of_float epsilon = XFin m e -> m < 0 ->
    Utils.get_cropping_offset token epsilon = Ok 0.
Proof.
  intros token value unit epsilon m e Hmatch Hsmall Heps Hm.
  pose proof (match_crop_pattern_nonneg _ _ _ Hmatch) as Hvalue.
  unfold Utils.get_cropping_offset. rewrite Hmatch.
  destruct unit.
  - destruct (float_of_int_small value Hvalue (Hsmall eq_refl)) as [v ->].
    simpl Py.bind. apply (clamp_negative_slack _ _ m e); assumption.
  - simpl Py.bind. apply (clamp_negative_slack _ _ m e); assumption.
Qed.

Lemma get_cropping_offset_negative_slack_witness :
  Utils.get_cropping_offset "75%" (fsub (float_pow2 40 0) (float_pow2 100 0)) = Ok 0 /\
  Utils.get_cropping_offset "20px" (fsub (float_pow2 40 0) (float_pow2 100 0)) = Ok 0.
Proof.
  split.
  - apply (get_cropping_offset_negative_slack "75%" 75 Utils.Percent _ (-8444249301319680) (-47)).
    + reflexivity.
    + intros _. reflexivity.
    + vm_compute. reflexivity.
    + lia.
  - apply (get_cropping_offset_negative_slack "20px" 20 Utils.Pixels _ (-8444249301319680) (-47)).
    + reflexivity.
    + intros H. discriminate H.
    + vm_compute. reflexivity.
    + lia.
Defined.

(** ** The parts of a crop option *)

Lemma split_absent (sep : ascii) (s : string) :
  ~ In sep (list_ascii_of_string s) -> split sep s = [s].
Proof.
  induction s as [|c r IH]; simpl; intros Hin; [reflexivity|].
  destruct (Ascii.eqb_spec c sep) as [->|]; [tauto|].
  rewrite IH by tauto. reflexivity.
Qed.

Lemma split_first (sep : ascii) (a r : string) :
  ~ In sep (list_ascii_of_string a) -> split sep (a ++ String sep r) = a :: split sep r.
Proof.
  induction a as [|c a IH]; simpl; intros Hin.
  - rewrite Ascii.eqb_refl. reflexivity.
  - destruct (Ascii.eqb_spec c sep) as [->|]; [tauto|].
    rewrite IH by tauto. reflexivity.
Qed.

Lemma split_length (sep : ascii) (s : string) : (1 <= length (split sep s))%nat.
Proof.
  induction s as [|c r IH]; simpl; [lia|].
  destruct (Ascii.eqb c sep); simpl; [lia|].
  destruct (split sep r); simpl in *; lia.
Qed.

Lemma split_length_app (sep : ascii) (a r : string) :
  length (split sep (a ++ String sep r)) = (length (split sep a) + length (split sep r))%nat.
Proof.
  induction a as [|c a IH]; simpl.
  - rewrite Ascii.eqb_refl. reflexivity.
  - destruct (Ascii.eqb c sep); simpl; [rewrite IH; reflexivity|].
    pose proof (split_length sep (a ++ String sep r)) as H1.
    pose proof (split_length sep a) as H2.
    destruct (split sep (a ++ String sep r)), (split sep a); simpl in *; lia.
Qed.

(** X16. A crop option with more than one space, so with more than two
    parts, is refused with [ThumbnailParseError], whatever the parts are:
    two values separated by two spaces are refused as well. *)
Theorem parse_crop_refuses_three_parts :
  forall (a b c : string) (xy_image : spec_float * spec_float) (xy_window : Z * Z),
    Utils.parse_crop (a ++ " " ++ b ++ " " ++ c) xy_image xy_window =
      Raise (mk_exn ThumbnailParseError
               ("Unrecognized crop option: " ++ a ++ " " ++ b ++ " " ++ c)).
Proof.
  intros a b c xy_image xy_window. unfold Utils.parse_crop.
  pose proof (split_length_app " " a (b ++ " " ++ c)) as Hlen.
  change (b ++ " " ++ c) with (b ++ String " " c) in Hlen.
  rewrite (split_length_app " " b c) in Hlen.
  pose proof (split_length " " a) as Ha.
  pose proof (split_length " " b) as Hb.
  pose proof (split_length " " c) as Hc.
  change (a ++ " " ++ b ++ " " ++ c) with (a ++ String " " (b ++ String " " c)).
  destruct (split " " (a ++ String " " (b ++ String " " c))) as [|p1 [|p2 [|p3 l]]];
    simpl in Hlen; try lia.
  reflexivity.
Qed.

(** X17. A single value is short for a pair: a horizontal alias for
    itself with [center], a vertical alias for [center] with itself, and
    anything else for itself on both axes. *)
Theorem parse_crop_single_value :
  forall (crop_option : string) (xy_image : spec_float * spec_float) (xy_window : Z * Z),
    ~ In " "%char (list_ascii_of_string crop_option) ->
    (Utils._X_ALIAS_PERCENT crop_option <> None ->
     Utils.parse_crop crop_option xy_image xy_window =
     Utils.parse_crop (crop_option ++ " center") xy_image xy_window) /\
    (Utils._X_ALIAS_PERCENT crop_option = None ->
     Utils._Y_ALIAS_PERCENT crop_option <> None ->
     Utils.parse_crop crop_option xy_image xy_window =
     Utils.parse_crop ("center " ++ crop_option) xy_image xy_window) /\
    (Utils._X_ALIAS_PERCENT crop_option = None ->
     Utils._Y_ALIAS_PERCENT crop_option = None ->
     Utils.parse_crop crop_option xy_image xy_window =
     Utils.parse_crop (crop_option ++ " " ++ crop_option) xy_image xy_window).
Proof.
  intros crop_option xy_image xy_window Hspace.
  assert (Hcenter : ~ In " "%char (list_ascii_of_string "center")).
  { simpl. intros H. repeat (destruct H as [H|H]; [discriminate H|]). exact H. }
  assert (Hpair : forall x y,
            ~ In " "%char (list_ascii_of_string x) -> ~ In " "%char (list_ascii_of_string y) ->
            split " " (x ++ String " " y) = [x; y]).
  { intros x y Hx Hy. rewrite (split_first _ _ _ Hx), (split_absent _ _ Hy). reflexivity. }
  unfold Utils.parse_crop at 1 3 5. rewrite (split_absent _ _ Hspace).
  split; [|split].
  - intros HX. destruct (Utils._X_ALIAS_PERCENT crop_option) as [x|] eqn:Hx; [|congruence].
    unfold Utils.parse_crop.
    change (crop_option ++ " center") with (crop_option ++ String " " "center").
    rewrite (Hpair _ _ Hspace Hcenter). unfold Utils.get_or_self. rewrite Hx. reflexivity.
  - intros HX HY. rewrite HX.
    destruct (Utils._Y_ALIAS_PERCENT crop_option) as [y|] eqn:Hy; [|congruence].
    unfold Utils.parse_crop.
    change ("center " ++ crop_option) with ("center" ++ String " " crop_option).
    rewrite (Hpair _ _ Hcenter Hspace). unfold Utils.get_or_self. rewrite Hy. reflexivity.
  - intros HX HY. rewrite HX, HY. unfold Utils.parse_crop.
    change (crop_option ++ " " ++ crop_option) with (crop_option ++ String " " crop_option).
    rewrite (Hpair _ _ Hspace Hspace). unfold Utils.get_or_self. rewrite HX, HY. reflexivity.
Qed.

Lemma parse_crop_single_value_witness :
  Utils.parse_crop "top" (float_pow2 300 0, float_pow2 200 0) (100, 100) =
    Utils.parse_crop "center top" (float_pow2 300 0, float_pow2 200 0) (100, 100) /\
  Utils.parse_crop "right" (float_pow2 300 0, float_pow2 200 0) (100, 100) =
    Utils.parse_crop "right center" (float_pow2 300 0, float_pow2 200 0) (100, 100) /\
  Utils.parse_crop "20px" (float_pow2 300 0, float_pow2 200 0) (100, 100) =
    Utils.parse_crop "20px 20px" (float_pow2 300 0, float_pow2 200 0) (100, 100).
Proof.
  assert (Hno : forall s, forallb (fun c => negb (Ascii.eqb c " ")) (list_ascii_of_string s) = true ->
                          ~ In " "%char (list_ascii_of_string s)).
  { intros s Hall Hin. rewrite forallb_forall in Hall. specialize (Hall _ Hin).
    rewrite Ascii.eqb_refl in Hall. discriminate. }
  split; [|split].
  - apply (proj1 (proj2 (parse_crop_single_value "top" _ _ (Hno "top" eq_refl))));
      [reflexivity | discriminate].
  - apply (proj1 (parse_crop_single_value "right" _ _ (Hno "right" eq_refl))). discriminate.
  - apply (proj2 (proj2 (parse_crop_single_value "20px" _ _ (Hno "20px" eq_refl))));
      reflexivity.
Defined.

(** ** The URL of a thumbnail *)

Lemma string_app_nil_r (s : string) : s ++ "" = s.
Proof.
  induction s as [|c s IH]; [reflexivity|].
  change (String c (s ++ "") = String c s). f_equal. exact IH.
Qed.

Section ThumbUrl.
Variable E : env.

(** X18. The cache key carries the thumbnail's name and the SSL mode but
    not [cache_bust]: once a URL is cached, a call that consults the
    cache returns it whatever its [cache_bust] says, so a URL cached with
    the cache buster is also returned to a caller who asked for none. *)
Theorem generate_url_cached_ignores_cache_bust :
  forall (self : ImageWithThumbsFieldFile) (thumb_name : string)
         (ssl_mode cache_bust cache_bust' : bool) (st st1 : url_state) (u : string),
    generate_url E self thumb_name ssl_mode true cache_bust st = (Ok u, st1) ->
    generate_url E self thumb_name ssl_mode true cache_bust' st1 =
      (Ok u, UrlState (cache st1) (S (url_calls st1))).
Proof.
  intros self thumb_name ssl_mode cache_bust cache_bust' st st1 u.
  unfold generate_url, mbind, url, cache_get, cache_set, ret.
  destruct (truthy (PyStr (name self))) eqn:Hname; [|discriminate].
  cbv beta iota. cbn [cache url_calls].
  set (key := strip ("Thumbcache_" ++ storage_url E (name self) ++ "_" ++ thumb_name ++
                      (if ssl_mode then "_ssl" else ""))).
  assert (Hkey : str_truthy (Some key) = true).
  { rewrite str_truthy_Some. destruct (String.eqb_spec key ""); [|reflexivity].
    exfalso. revert e. apply strip_nonempty. reflexivity. }
  rewrite Hkey. cbv beta iota. cbn [cache url_calls].
  assert (Hnew : forall cb : bool,
            str_truthy
              (Some (if ssl_mode
                     then replace "http://" "https://"
                            (if (cb && truthy (PyStr (MEDIA_CACHE_BUSTER E)))%bool
                             then (rsplit1_first "/" (rsplit1_first "?" (storage_url E (name self)))
                                   ++ "/" ++ basename (_calc_thumb_filename self thumb_name))
                                  ++ "?cbust=" ++ MEDIA_CACHE_BUSTER E
                             else rsplit1_first "/" (rsplit1_first "?" (storage_url E (name self)))
                                  ++ "/" ++ basename (_calc_thumb_filename self thumb_name))
                     else (if (cb && truthy (PyStr (MEDIA_CACHE_BUSTER E)))%bool
                           then (rsplit1_first "/" (rsplit1_first "?" (storage_url E (name self)))
                                 ++ "/" ++ basename (_calc_thumb_filename self thumb_name))
                                ++ "?cbust=" ++ MEDIA_CACHE_BUSTER E
                           else rsplit1_first "/" (rsplit1_first "?" (storage_url E (name self)))
                                ++ "/" ++ basename (_calc_thumb_filename self thumb_name))))
            = true).
  { intros cb. rewrite str_truthy_Some.
    match goal with |- negb (String.eqb ?new "") = true =>
      destruct (String.eqb_spec new "") as [e|]; [|reflexivity]; exfalso; revert e
    end.
    assert (Hbase : forall a b, a ++ "/" ++ b <> "")
      by (intros a b; apply app_nonempty_r; discriminate).
    destruct ssl_mode; [apply replace_nonempty; [discriminate|]|];
      (destruct (cb && truthy (PyStr (MEDIA_CACHE_BUSTER E)))%bool;
       [apply app_nonempty_l, Hbase | apply Hbase]). }
  destruct (cache st !! key) as [v|] eqn:Hget.
  - destruct (str_truthy (Some v)) eqn:Hv.
    + intros [= <- <-]. cbn [cache url_calls]. rewrite Hget, Hv. reflexivity.
    + intros [= <- <-]. cbn [cache url_calls].
      rewrite lookup_insert_eq.
      match goal with
      | |- context [str_truthy (Some ?x)] =>
          replace (str_truthy (Some x)) with true by (symmetry; exact (Hnew cache_bust))
      end.
      reflexivity.
  - try change (str_truthy None) with false. cbv iota.
    intros [= <- <-]. cbn [cache url_calls].
    rewrite lookup_insert_eq.
      match goal with
      | |- context [str_truthy (Some ?x)] =>
          replace (str_truthy (Some x)) with true by (symmetry; exact (Hnew cache_bust))
      end.
      reflexivity.
Qed.

(** X19. The URL of a thumbnail, computed without the cache and without
    SSL: the URL of the original up to its last slash, with its GET
    attributes dropped, then the base name of the thumbnail's file, then
    the cache buster when one is set and asked for. *)
Theorem generate_url_shape :
  forall (self : ImageWithThumbsFieldFile) (thumb_name : string) (cache_bust : bool)
         (st : url_state) (base file query : string),
    name self <> "" ->
    ~ In "/"%char (list_ascii_of_string file) ->
    (storage_url E (name self) = base ++ "/" ++ file /\
     ~ In "?"%char (list_ascii_of_string (base ++ "/" ++ file))) \/
    (storage_url E (name self) = (base ++ "/" ++ file) ++ "?" ++ query /\
     ~ In "?"%char (list_ascii_of_string query)) ->
    generate_url E self thumb_name false false cache_bust st =
      (Ok (base ++ "/" ++ basename (_calc_thumb_filename self thumb_name) ++
           (if (cache_bust && negb (String.eqb (MEDIA_CACHE_BUSTER E) ""))%bool
            then "?cbust=" ++ MEDIA_CACHE_BUSTER E else "")),
       UrlState (cache st) (S (url_calls st))).
Proof.
  intros self thumb_name cache_bust st base file query Hname Hfile Hstorage.
  unfold generate_url, mbind, url, cache_set, ret. simpl truthy.
  destruct (String.eqb_spec (name self) "") as [|_]; [contradiction|]. simpl negb. cbv iota.
  assert (Hstr : rsplit1_first "?" (storage_url E (name self)) = base ++ "/" ++ file).
  { unfold rsplit1_first. destruct Hstorage as [[-> Hurl] | [-> Hquery]].
    - rewrite (rsplit1_absent _ _ Hurl). reflexivity.
    - change ((base ++ "/" ++ file) ++ "?" ++ query)
        with ((base ++ "/" ++ file) ++ String "?" query).
      rewrite (rsplit1_last_sep _ _ _ Hquery). reflexivity. }
  rewrite Hstr.
  assert (Hminus : rsplit1_first "/" (base ++ "/" ++ file) = base).
  { unfold rsplit1_first. change (base ++ "/" ++ file) with (base ++ String "/" file).
    rewrite (rsplit1_last_sep _ _ _ Hfile). reflexivity. }
  rewrite Hminus. cbv beta iota. simpl str_truthy. cbv iota.
  destruct (cache_bust && negb (String.eqb (MEDIA_CACHE_BUSTER E) ""))%bool.
  - rewrite string_app_assoc. reflexivity.
  - rewrite string_app_nil_r. reflexivity.
Qed.

End ThumbUrl.

Lemma generate_url_cached_ignores_cache_bust_witness :
  let E := Env 86400 "v2" (fun name => "http://media.test/" ++ name) (fun name => name)
             (fun _ => None) (fun _ => None) in
  let first := generate_url E (photo two_thumbs) "small" false true true (UrlState ∅ 0) in
  fst first = Ok "http://media.test/a/photo_small.jpeg?cbust=v2" /\
  fst (generate_url E (photo two_thumbs) "small" false true false (snd first)) =
    Ok "http://media.test/a/photo_small.jpeg?cbust=v2".
Proof.
  intros E first.
  assert (Hfirst : first = (Ok "http://media.test/a/photo_small.jpeg?cbust=v2", snd first))
    by (vm_compute; reflexivity).
  split; [vm_compute; reflexivity|].
  rewrite (generate_url_cached_ignores_cache_bust E (photo two_thumbs) "small" false true false
             (UrlState ∅ 0) (snd first) _ Hfirst).
  reflexivity.
Defined.

Lemma generate_url_shape_witness :
  let E := Env 86400 "v2" (fun name => "http://media.test/" ++ name ++ "?sig=a/b")
             (fun name => name) (fun _ => None) (fun _ => None) in
  generate_url E (photo two_thumbs) "small" false false true (UrlState ∅ 0) =
    (Ok "http://media.test/a/photo_small.jpeg?cbust=v2", UrlState ∅ 1).
Proof.
  intros E.
  apply (generate_url_shape E (photo two_thumbs) "small" true (UrlState ∅ 0)
           "http://media.test/a" "photo.png" "sig=a/b").
  - discriminate.
  - simpl. intros H. repeat (destruct H as [H|H]; [discriminate H|]). exact H.
  - right. split; [reflexivity|].
    simpl. intros H. repeat (destruct H as [H|H]; [discriminate H|]). exact H.
Defined.

Lemma generate_url_cold_warm_witness :
  generate_url plain_env (photo two_thumbs) "large" true false true
    (UrlState {["stale" := "entry"]} 7) =
  (Ok "https://media.test/a/photo_large.jpeg", UrlState {["stale" := "entry"]} 8).
Proof.
  apply (generate_url_cold_warm plain_env (photo two_thumbs) "large" true true 0 7
           {["stale" := "entry"]} "https://media.test/a/photo_large.jpeg"
           (snd (generate_url plain_env (photo two_thumbs) "large" true true true
                   (UrlState ∅ 0)))).
  vm_compute. reflexivity.
Defined.

(** ** Files with the same base name *)

Lemma run_tracker_mono (E : env) (codec : PIL.codec) (self : Command) (l : list instance) :
  forall (s s' : loop_state) (r : result unit),
    for_each (regenerate_one E codec self) l s = (r, s') ->
    dom (storage s) ⊆ dom (storage s') /\
    regen_tracker s ⊆ regen_tracker s' /\
    exists outs, printed s' = (printed s ++ outs)%list.
Proof.
  induction l as [|x l IH]; intros s s' r; simpl.
  - unfold ret. intros [= <- <-]. repeat split; try reflexivity.
    exists []. rewrite app_nil_r. reflexivity.
  - unfold mbind.
    destruct (regenerate_one E codec self x s) as [[[]|e] sa] eqn:Hstep;
      destruct (step_cases _ _ _ _ _ _ _ Hstep) as (Hd & Ht & _ & Hp).
    + intros Hrest. destruct (IH _ _ _ Hrest) as (Hd' & Ht' & outs & Hp').
      destruct Hp as (o & Ho & _).
      repeat split; [set_solver | set_solver |].
      exists (o :: outs). rewrite Hp', Ho, <- app_assoc. reflexivity.
    + intros [= <- <-]. repeat split; try assumption.
      exists []. rewrite app_nil_r. exact Hp.
Qed.

(** X21. The run remembers files by base name. Once an instance's file
    has been regenerated or skipped as complete, a later instance whose
    file has the same base name, in whatever directory, is skipped as
    already processed: nothing is read or stored for it, though its own
    thumbnails may be missing. *)
Theorem regenerate_thumbs_same_base_name_skipped :
  forall (E : env) (codec : PIL.codec) (self : Command)
         (pre mid : list instance) (x y : instance) (st : files)
         (s1 : loop_state) (o : outcome),
    regenerate_thumbs E codec self (pre ++ x :: mid) st = (Ok tt, s1) ->
    printed s1 !! length pre = Some o ->
    completed o = true ->
    has_file y = true ->
    basename (name (file_of y)) = basename (name (file_of x)) ->
    regenerate_thumbs E codec self (pre ++ x :: mid ++ [y]) st =
      (Ok tt, LoopState (storage s1) (regen_tracker s1) (processed_count s1)
                (skipped_no_file s1) (S (skipped_exists s1)) (error_count s1)
                (printed s1 ++ [SkippedAlreadyProcessed])).
Proof.
  intros E codec self pre mid x y st s1 o Hrun Hline Hdone Hfile Hbase.
  assert (Hseen : basename (name (file_of y)) ∈ regen_tracker s1).
  { unfold regenerate_thumbs in Hrun. rewrite for_each_app in Hrun.
    destruct (for_each (regenerate_one E codec self) pre (initial st)) as [[[]|e] sp] eqn:Hpre;
      [|discriminate].
    destruct (run_counts E codec self _ _ _ _ Hpre) as (outs & Hp & _ & _ & _ & _ & _ & Hlen).
    simpl in Hp. subst outs.
    simpl in Hrun. unfold mbind in Hrun.
    destruct (regenerate_one E codec self x sp) as [[[]|e] sx] eqn:Hstep; [|discriminate].
    destruct (step_cases E codec self _ _ _ _ Hstep) as (_ & _ & _ & o' & Hp' & Hcase).
    destruct (run_tracker_mono E codec self _ _ _ _ Hrun) as (_ & Htr & outs & Hout).
    assert (Ho : o' = o).
    { rewrite Hout, Hp', <- Hlen in Hline.
      rewrite lookup_app_l in Hline by (rewrite length_app; simpl; lia).
      rewrite lookup_app_r in Hline by lia.
      rewrite Nat.sub_diag in Hline. simpl in Hline. congruence. }
    subst o'. rewrite Hbase. apply Htr.
    destruct o; try discriminate Hdone.
    - destruct Hcase as (_ & Hin & ->). exact Hin.
    - destruct Hcase as (_ & _ & ->). set_solver.
    - destruct Hcase as (_ & _ & ->). set_solver. }
  unfold regenerate_thumbs in *.
  change (pre ++ x :: mid ++ [y])%list with (pre ++ (x :: mid) ++ [y])%list.
  rewrite app_assoc, for_each_app, Hrun. simpl. unfold mbind.
  rewrite (step_already E codec self y s1 Hfile Hseen). reflexivity.
Qed.

Lemma regenerate_thumbs_same_base_name_skipped_witness :
  let x := Instance 1 (photo two_thumbs) in
  let y := Instance 2 (FieldFile "b/photo.png" (Field two_thumbs (Some "JPEG"))) in
  let st : files := {["a/photo.png" := "IMG one"; "b/photo.png" := "IMG two"]} in
  let out := regenerate_thumbs plain_env fake_codec (Cmd false) [x; y] st in
  printed (snd out) = [Processed; SkippedAlreadyProcessed] /\
  storage_exists (storage (snd out)) "a/photo_small.jpeg" = true /\
  storage_exists (storage (snd out)) "b/photo_small.jpeg" = false.
Proof.
  intros x y st out.
  pose (s1 := snd (regenerate_thumbs plain_env fake_codec (Cmd false) [x] st)).
  assert (Hout : out =
            (Ok tt, LoopState (storage s1) (regen_tracker s1) (processed_count s1)
                      (skipped_no_file s1) (S (skipped_exists s1)) (error_count s1)
                      (printed s1 ++ [SkippedAlreadyProcessed]))).
  { apply (regenerate_thumbs_same_base_name_skipped plain_env fake_codec (Cmd false)
             [] [] x y st s1 Processed).
    - vm_compute. reflexivity.
    - vm_compute. reflexivity.
    - reflexivity.
    - reflexivity.
    - vm_compute. reflexivity. }
  rewrite Hout. repeat split; vm_compute; reflexivity.
Defined.

(** ** What a run writes *)

Section RunWrites.
Variable E : env.
Variable codec : PIL.codec.
Variable self : Command.

Lemma step_frame (x : instance) (s s' : loop_state) (r : result unit) :
  regenerate_one E codec self x s = (r, s') ->
  forall n, (forall thumb, In thumb (thumbs (field (file_of x))) ->
               n <> _calc_thumb_filename (file_of x) (fst thumb)) ->
            storage s' !! n = storage s !! n.
Proof.
  unfold regenerate_one.
  destruct (truthy (PyStr (name (file_of x)))).
  2:{ simpl negb. cbv iota. unfold mbind, print, incr_skipped_no_file.
      intros [= <- <-]. reflexivity. }
  change (negb true) with false. cbv iota.
  unfold mbind at 1, tracked.
  destruct (bool_decide (basename (name (file_of x)) ∈ regen_tracker s)).
  { unfold mbind, print, incr_skipped_exists. intros [= <- <-]. reflexivity. }
  cbv iota. unfold mbind at 1.
  assert (Hprocess :
    (run fdat <~
          try_except
            (run fdat <~ on_storage (storage_read (name (file_of x))); ret (Some fdat))
            (fun exc =>
               if is_IOError exc
               then run _ <~ print ErrorMissingSource; run _ <~ incr_error; ret None
               else raise exc);
          match fdat with
          | Some fdat0 =>
              run done <~
              try_except
                (run _ <~ on_storage
                            (generate_thumbs E codec (file_of x)
                               (basename (name (file_of x))) fdat0);
                 run _ <~ incr_processed; ret true)
                (fun e =>
                   if is_IOError e
                   then run _ <~ print ErrorCorrupt; run _ <~ incr_error; ret false
                   else raise e);
              if done : bool
              then run _ <~ print Processed; track (basename (name (file_of x)))
              else ret tt
          | None => ret tt
          end) s = (r, s') ->
      forall n, (forall thumb, In thumb (thumbs (field (file_of x))) ->
                   n <> _calc_thumb_filename (file_of x) (fst thumb)) ->
                storage s' !! n = storage s !! n).
  { unfold mbind, try_except, on_storage, storage_read, ret, raise, print, incr_error,
      incr_processed, track.
    cbv beta.
    cbn [storage regen_tracker processed_count skipped_no_file skipped_exists
           error_count printed].
    destruct (storage s !! name (file_of x)) as [content|];
      cbn [is_IOError exn_class_of mk_exn]; [|intros [= <- <-]; reflexivity].
    match goal with
    | |- context [generate_thumbs ?E ?codec ?f ?nm ?c ?st] =>
        destruct (generate_thumbs E codec f nm c st) as [[[]|e] st1] eqn:Hgen;
        pose proof (generate_thumbs_frame _ _ _ _ _ _ _ _ Hgen) as Hframe;
        cbn [storage regen_tracker processed_count skipped_no_file skipped_exists
               error_count printed]
    end.
    - intros [= <- <-]. exact Hframe.
    - destruct (is_IOError e); intros [= <- <-]; exact Hframe. }
  destruct (negb (needs_regeneration self (file_of x) (storage s)));
    [destruct (get_missing_thumbnails (file_of x) (storage s))|].
  - unfold mbind, print, incr_skipped_exists, track. intros [= <- <-]. reflexivity.
  - exact Hprocess.
  - exact Hprocess.
Qed.

Lemma run_frame (l : list instance) :
  forall (s s' : loop_state) (r : result unit),
    for_each (regenerate_one E codec self) l s = (r, s') ->
    forall n, (forall x thumb, In x l -> In thumb (thumbs (field (file_of x))) ->
                 n <> _calc_thumb_filename (file_of x) (fst thumb)) ->
              storage s' !! n = storage s !! n.
Proof.
  induction l as [|x l IH]; intros s s' r; simpl.
  - unfold ret. intros [= <- <-]. reflexivity.
  - unfold mbind.
    destruct (regenerate_one E codec self x s) as [[[]|e] sa] eqn:Hstep.
    + intros Hrest n Hn. rewrite (IH _ _ _ Hrest n) by (intros; eapply Hn; eauto).
      apply (step_frame _ _ _ _ Hstep). intros thumb Hin. apply (Hn x); auto.
    + intros [= <- <-] n Hn.
      apply (step_frame _ _ _ _ Hstep). intros thumb Hin. apply (Hn x); auto.
Qed.

End RunWrites.

(** X22. A run of the command, whether it returns or is stopped, removes
    no file, and changes no file other than the thumbnails of the
    instances it is given. *)
Theorem regenerate_thumbs_writes_only_thumbnails :
  forall (E : env) (codec : PIL.codec) (self : Command) (instances : list instance)
         (st : files) (r : result unit) (s : loop_state),
    regenerate_thumbs E codec self instances st = (r, s) ->
    dom st ⊆ dom (storage s) /\
    (forall n,
       (forall x thumb, In x instances -> In thumb (thumbs (field (file_of x))) ->
          n <> _calc_thumb_filename (file_of x) (fst thumb)) ->
       storage s !! n = st !! n).
Proof.
  intros E codec self instances st r s Hrun. split.
  - destruct (run_tracker_mono E codec self _ _ _ _ Hrun) as (Hdom & _). exact Hdom.
  - exact (run_frame E codec self _ _ _ _ Hrun).
Qed.

Lemma regenerate_thumbs_writes_only_thumbnails_witness :
  storage (snd first_run) !! "a/photo.png" = Some "IMG original".
Proof.
  destruct (regenerate_thumbs_writes_only_thumbnails plain_env fake_codec (Cmd false)
              dataset originals (fst first_run) (snd first_run) (surjective_pairing _))
    as [_ Hframe].
  rewrite (Hframe "a/photo.png"); [vm_compute; reflexivity|].
  intros x thumb Hx Hthumb.
  destruct Hx as [<-|[<-|[<-|[]]]]; destruct Hthumb as [<-|[<-|[]]];
    vm_compute; discriminate.
Defined.

(** ** The field's keyword arguments *)

(** X23. Building a field from what [deconstruct] returns gives the field
    back: the thumbnails and the format are kept as they are, a format
    that is [None] included, where an absent keyword gives [JPEG]. *)
Theorem deconstruct_round_trip :
  forall self : ImageWithThumbsField,
    ImageWithThumbsField__init__ (deconstruct self) = self.
Proof. intros [t f]. reflexivity. Qed.

(** ** The arguments of the command *)

Lemma contains_dot (s : string) :
  contains "." s = true ->
  exists a r, s = a ++ String "." r /\ ~ In "."%char (list_ascii_of_string a).
Proof.
  induction s as [|c s IH]; [discriminate|].
  change (contains "." (String c s))
    with (match (if Ascii.eqb "." c then Some s else None) with
          | Some _ => true
          | None => contains "." s
          end).
  destruct (Ascii.eqb_spec "."%char c) as [<-|Hne].
  - intros _. exists "", s. split; [reflexivity | simpl; tauto].
  - intros H. destruct (IH H) as (a & r & -> & Ha).
    exists (String c a), r. split; [reflexivity|].
    simpl. intros [Heq|Hin]; [congruence | tauto].
Qed.

(** X24. A model name that [validate_input] accepts has the two parts
    [parse_input] reads, so [app_split[1]] never raises. Of a name with
    more dots only the first two parts are read, the second in lower
    case: the content type of [app.Model.more] is that of [app.model]. *)
Theorem validated_input_has_two_parts :
  forall (Model : Type) (content_types : string -> string -> option (option Model))
         (model_name field_name : string),
    validate_input model_name = inr tt ->
    exists app second rest,
      split "." model_name = app :: second :: rest /\
      parse_input content_types model_name field_name =
        match content_types app (lower second) with
        | Some model => inr (model, field_name)
        | None => inl (CommandError ("There is no app/model combination: " ++ model_name))
        end /\
      parse_input content_types model_name field_name <> inl IndexError.
Proof.
  intros Model content_types model_name field_name. unfold validate_input.
  destruct (contains "." model_name) eqn:Hdot; [|discriminate]. intros _.
  destruct (contains_dot _ Hdot) as (a & r & -> & Ha).
  pose proof (split_first "." a r Ha) as Hsplit.
  pose proof (split_length "." r) as Hlen.
  destruct (split "." r) as [|second rest] eqn:Hr; [simpl in Hlen; lia|].
  exists a, second, rest. split; [exact Hsplit|].
  unfold parse_input. rewrite Hsplit.
  split; [reflexivity|]. destruct (content_types a (lower second)); discriminate.
Qed.

Lemma validated_input_has_two_parts_witness :
  let content_types := fun app model : string =>
    if (String.eqb app "learn" && String.eqb model "series")%bool
    then Some (Some 7%nat) else None in
  parse_input content_types "learn.Series.extra" "image" = inr (Some 7%nat, "image").
Proof.
  intros content_types.
  destruct (validated_input_has_two_parts nat content_types "learn.Series.extra" "image"
              eq_refl) as (app & second & rest & Hsplit & Hparse & _).
  rewrite Hparse. injection Hsplit as <- <- _. reflexivity.
Defined.

(** ** Values that are not a number with a unit *)

Lemma get_cropping_offset_no_digit (token : string) (epsilon : spec_float) :
  match token with
  | EmptyString => True
  | String c _ => Utils.is_digit c = false
  end ->
  Utils.get_cropping_offset token epsilon =
    Raise (mk_exn ThumbnailParseError ("Unrecognized crop option: " ++ token)).
Proof.
  intros Hfirst. unfold Utils.get_cropping_offset, Utils.match_crop_pattern.
  destruct token as [|c r]; [reflexivity|].
  cbn [Utils.read_digits]. rewrite Hfirst. reflexivity.
Qed.

(** X25. A horizontal value that is neither an alias of the horizontal
    axis nor starts with a digit is refused with [ThumbnailParseError]
    naming that value: a signed or fractional number, an unknown word,
    and a vertical alias in the first place, so that [top left] is
    refused where [left top] is read. *)
Theorem parse_crop_refuses_unknown_value :
  forall (x y : string) (xy_image : spec_float * spec_float) (xy_window : Z * Z),
    ~ In " "%char (list_ascii_of_string x) ->
    ~ In " "%char (list_ascii_of_string y) ->
    Utils._X_ALIAS_PERCENT x = None ->
    match x with
    | EmptyString => True
    | String c _ => Utils.is_digit c = false
    end ->
    0 <= fst xy_window < 2 ^ 53 ->
    Utils.parse_crop (x ++ " " ++ y) xy_image xy_window =
      Raise (mk_exn ThumbnailParseError ("Unrecognized crop option: " ++ x)) /\
    (Utils._Y_ALIAS_PERCENT x = None ->
     Utils.parse_crop x xy_image xy_window =
       Raise (mk_exn ThumbnailParseError ("Unrecognized crop option: " ++ x))).
Proof.
  intros x y xy_image xy_window Hx Hy HX Hfirst Hwin.
  destruct (float_of_int_small (fst xy_window) ltac:(lia) ltac:(lia)) as [wx Hwx].
  split.
  - unfold Utils.parse_crop.
    change (x ++ " " ++ y) with (x ++ String " " y).
    rewrite (split_first _ _ _ Hx), (split_absent _ _ Hy).
    unfold Utils.get_or_self. rewrite HX. cbv beta iota delta [Py.bind]. rewrite Hwx.
    rewrite (get_cropping_offset_no_digit x _ Hfirst). reflexivity.
  - intros HY. unfold Utils.parse_crop. rewrite (split_absent _ _ Hx), HX, HY.
    cbv beta iota delta [Py.bind]. rewrite Hwx.
    rewrite (get_cropping_offset_no_digit x _ Hfirst). reflexivity.
Qed.

Lemma parse_crop_refuses_unknown_value_witness :
  Utils.parse_crop "top left" (float_pow2 300 0, float_pow2 200 0) (100, 100) =
    Raise (mk_exn ThumbnailParseError "Unrecognized crop option: top") /\
  Utils.parse_crop "-5%" (float_pow2 300 0, float_pow2 200 0) (100, 100) =
    Raise (mk_exn ThumbnailParseError "Unrecognized crop option: -5%").
Proof.
  assert (Hno : forall s, forallb (fun c => negb (Ascii.eqb c " ")) (list_ascii_of_string s) = true ->
                          ~ In " "%char (list_ascii_of_string s)).
  { intros s Hall Hin. rewrite forallb_forall in Hall. specialize (Hall _ Hin).
    rewrite Ascii.eqb_refl in Hall. discriminate. }
  split.
  - apply (proj1 (parse_crop_refuses_unknown_value "top" "left" _ (100, 100)
                    (Hno "top" eq_refl) (Hno "left" eq_refl) eq_refl eq_refl
                    ltac:(simpl; lia))).
  - apply (proj2 (parse_crop_refuses_unknown_value "-5%" "" _ (100, 100)
                    (Hno "-5%" eq_refl) (Hno "" eq_refl) eq_refl eq_refl
                    ltac:(simpl; lia))).
    reflexivity.
Defined.
